(** * godar: aircraft proximity monitor

    A shallow embedding of the parts of [pkg/geo], [pkg/aircraft],
    [pkg/fetch] and [pkg/monitor] that the specification makes claims
    about, followed by the theorems that settle those claims.

    Conventions.
    - [float64] is Rocq's primitive binary64 float wherever the code only
      compares, adds, divides or rounds it ([BearingToDirection], the distance
      comparison of the tracker, the filter guards of [Fetch]).  The haversine
      formula uses [math.Sin], [math.Cos] and [math.Atan2], which have no
      bit-exact specification; it is embedded over the real numbers.
    - [time.Time] is an instant in nanoseconds ([Z]); [time.Duration] is an
      [int64] number of nanoseconds.
    - [map[string]*AircraftTracker] is a [gmap string AircraftTracker]; every
      pointer is stored under exactly one key, so updating through the pointer
      is an insert at that key.
    - Collaborators the code reaches through interfaces or the network (the
      HTTP server, the clock, the Notifier, the monitor's [Fetcher]) are
      oracles that answer from the calls made so far.
    - Log lines are kept only where a claim speaks of them. *)

From Stdlib Require Import ZArith List String Ascii Bool Lia.
From Stdlib Require Import DecimalString DecimalZ DecimalPos.
From Stdlib Require Import Floats.PrimFloat Floats.SpecFloat Floats.FloatOps.
From Stdlib Require Import Reals Lra.
From stdpp Require Import base option strings gmap fin_maps.
Import ListNotations.

Local Open Scope string_scope.
Local Open Scope Z_scope.

(** ** Package [geo] *)
Module geo.

(** *** [math] on binary64, through the exact value [m * 2^e] of a float *)

(** [math.Mod(x, y)]: the exact remainder of [x / y], with the sign of [x].
    Special cases as documented by Go: [Mod(±Inf, y) = Mod(NaN, y) =
    Mod(x, 0) = Mod(x, NaN) = NaN], [Mod(x, ±Inf) = x]. *)
Definition math_Mod (x y : float) : float :=
  match Prim2SF x, Prim2SF y with
  | S754_nan, _ | _, S754_nan => nan
  | S754_infinity _, _ => nan
  | _, S754_zero _ => nan
  | _, S754_infinity _ => x
  | S754_zero _, _ => x
  | S754_finite sx mx ex, S754_finite _ my ey =>
      let e := Z.min ex ey in
      let nx := Z.pos mx * 2 ^ (ex - e) in
      let ny := Z.pos my * 2 ^ (ey - e) in
      let r := nx mod ny in
      if r =? 0 then (if sx then neg_zero else zero)
      else SF2Prim (S754_finite sx (Z.to_pos r) e)
  end.

(** [math.Round(x)]: nearest integer, halves away from zero; zeros,
    infinities and NaN are returned unchanged. *)
Definition math_Round (x : float) : float :=
  match Prim2SF x with
  | S754_finite s m e =>
      if 0 <=? e then x
      else
        let d := 2 ^ (- e) in
        let q := Z.pos m / d in
        let r := Z.pos m mod d in
        let n := if d <=? 2 * r then q + 1 else q in
        if n =? 0 then (if s then neg_zero else zero)
        else SF2Prim (S754_finite s (Z.to_pos n) 0)
  | _ => x
  end.

(** The conversion [int(x)] of a [float64]: truncation toward zero.  Go
    leaves the result implementation-defined when the value does not fit
    (NaN, infinities, magnitude beyond [int64]); that is [None] here. *)
Definition int_of_float64 (x : float) : option Z :=
  match Prim2SF x with
  | S754_zero _ => Some 0
  | S754_finite s m e =>
      let v := if 0 <=? e then Z.pos m * 2 ^ e else Z.pos m / 2 ^ (- e) in
      let z := if s then - v else v in
      if (- 2 ^ 63 <=? z) && (z <? 2 ^ 63) then Some z else None
  | _ => None
  end.

(** *** [BearingToDirection] *)

Definition directions : list string :=
  [ "N"; "NNE"; "NE"; "ENE";
    "E"; "ESE"; "SE"; "SSE";
    "S"; "SSW"; "SW"; "WSW";
    "W"; "WNW"; "NW"; "NNW" ].

(** The bearing after [math.Mod(bearing, 360)] and the [+= 360] of a
    negative remainder. *)
Definition normalize_bearing (bearing : float) : float :=
  let bearing := math_Mod bearing 360 in
  if (bearing <? 0)%float then (bearing + 360)%float else bearing.

(** [int(math.Round(bearing/22.5)) % 16]; Go's [%] truncates, hence
    [Z.rem]. *)
Definition direction_index (bearing : float) : option Z :=
  match int_of_float64 (math_Round (normalize_bearing bearing / 22.5)%float) with
  | Some n => Some (Z.rem n 16)
  | None => None
  end.

(** [None] when no label is returned: the conversion to [int] is not
    defined, or the index is outside the slice (a run-time panic). *)
Definition BearingToDirection (bearing : float) : option string :=
  match direction_index bearing with
  | Some index =>
      if index <? 0 then None else nth_error directions (Z.to_nat index)
  | None => None
  end.

(** *** The rule of the specification, on quarter degrees *)

(** The float64 of a small integer (exact below [2^53]). *)
Definition float_of_Z (n : Z) : float :=
  if n <? 0 then (- of_uint63 (Uint63Axioms.of_Z (- n)))%float
  else of_uint63 (Uint63Axioms.of_Z n).

(** A bearing of [n] quarter degrees, which binary64 holds exactly. *)
Definition quarter_degrees (n : Z) : float := (float_of_Z n / 4)%float.

(** The nearest of the sixteen sector centres to [n] quarter degrees, in
    exact arithmetic: a sector is 90 quarter degrees wide, the circle has
    1440 of them, and a bearing half-way between two centres goes to the
    next one clockwise. *)
Definition nearest_sector (n : Z) : Z := ((n mod 1440 + 45) / 90) mod 16.

Definition agrees_on_quarter_degrees (n : Z) : bool :=
  match BearingToDirection (quarter_degrees n),
        nth_error directions (Z.to_nat (nearest_sector n)) with
  | Some label, Some expected => String.eqb label expected
  | _, _ => false
  end.

(** *** [CalculateDistance] and the validity predicates, over the reals *)
Section Reals.
Local Open Scope R_scope.




End Reals.

End geo.

(** ** The standard-library helpers the packages share *)
Module strconv.

Definition int64_min : Z := - 2 ^ 63.
Definition int64_max : Z := 2 ^ 63 - 1.

Definition in_int64 (z : Z) : bool := (int64_min <=? z) && (z <=? int64_max).

(** The value of a decimal digit byte, if it is one. *)
Definition digit_of (c : ascii) : option Z :=
  let n := Z.of_nat (nat_of_ascii c) in
  if (48 <=? n) && (n <=? 57) then Some (n - 48) else None.

Fixpoint parse_digits (s : string) (acc : Z) : option Z :=
  match s with
  | EmptyString => Some acc
  | String c rest =>
      match digit_of c with
      | Some d => parse_digits rest (10 * acc + d)
      | None => None
      end
  end.

(** [strconv.Atoi] (that is [ParseInt(s, 10, 0)] on a 64-bit platform):
    one optional sign, then one or more decimal digits, the value within
    [int64]; [None] stands for the [*NumError] (syntax or range). *)
Definition Atoi (s : string) : option Z :=
  let '(neg, body) :=
    match s with
    | String "+"%char rest => (false, rest)
    | String "-"%char rest => (true, rest)
    | _ => (false, s)
    end in
  match body with
  | EmptyString => None
  | _ =>
      match parse_digits body 0 with
      | Some n =>
          let z := if neg then - n else n in
          if in_int64 z then Some z else None
      | None => None
      end
  end.

(** [strconv.Itoa]. *)
Definition Itoa (z : Z) : string := NilZero.string_of_int (Z.to_int z).

(** A decimal integer as [Atoi] reads one: an optional sign and then digits,
    at least one. *)
Fixpoint all_digits (s : string) : bool :=
  match s with
  | EmptyString => true
  | String c rest =>
      match digit_of c with
      | Some _ => all_digits rest
      | None => false
      end
  end.

Definition is_decimal_integer (s : string) : bool :=
  let body :=
    match s with
    | String "+"%char rest => rest
    | String "-"%char rest => rest
    | _ => s
    end in
  negb (String.eqb body "") && all_digits body.

(** The digits of a decimal numeral read from the left onto [acc]. *)
Fixpoint uint_value (d : Decimal.uint) (acc : Z) : Z :=
  match d with
  | Decimal.Nil => acc
  | Decimal.D0 l => uint_value l (10 * acc + 0)
  | Decimal.D1 l => uint_value l (10 * acc + 1)
  | Decimal.D2 l => uint_value l (10 * acc + 2)
  | Decimal.D3 l => uint_value l (10 * acc + 3)
  | Decimal.D4 l => uint_value l (10 * acc + 4)
  | Decimal.D5 l => uint_value l (10 * acc + 5)
  | Decimal.D6 l => uint_value l (10 * acc + 6)
  | Decimal.D7 l => uint_value l (10 * acc + 7)
  | Decimal.D8 l => uint_value l (10 * acc + 8)
  | Decimal.D9 l => uint_value l (10 * acc + 9)
  end.

End strconv.

Module strings.

(** [strings.HasPrefix(s, prefix)]. *)
Fixpoint HasPrefix (s prefix : string) : bool :=
  match prefix, s with
  | EmptyString, _ => true
  | String p prefix', String c s' =>
      if Ascii.eqb p c then HasPrefix s' prefix' else false
  | String _ _, EmptyString => false
  end.

(** [strings.Contains(s, substr)]. *)
Fixpoint Contains (s substr : string) : bool :=
  HasPrefix s substr
  || match s with
     | EmptyString => false
     | String _ s' => Contains s' substr
     end.

Definition to_lower (c : ascii) : ascii :=
  let n := nat_of_ascii c in
  if (65 <=? n)%nat && (n <=? 90)%nat then ascii_of_nat (n + 32) else c.

(** [strings.EqualFold] on ASCII text.  Unicode folding adds pairs only for
    letters outside the name this program compares with. *)
Fixpoint EqualFold (s t : string) : bool :=
  match s, t with
  | EmptyString, EmptyString => true
  | String a s', String b t' =>
      Ascii.eqb (to_lower a) (to_lower b) && EqualFold s' t'
  | _, _ => false
  end.

End strings.

(** ** Package [aircraft] *)
Module aircraft.

(** The fields of [Aircraft] the monitor reads. *)
Record Aircraft := {
  Icao : string;
  Alt : Z;
  Call : string;
  Lat : float;
  Long : float;
  Spd : float;
  Type_ : string;
  Mil : bool
}.

Record AircraftList := {
  TotalAc : Z;
  Stm : Z;
  Aircraft_ : list Aircraft
}.

(** The JSON value handed to an [UnmarshalJSON] method, by its shape: a
    number keeps its literal text, a string its decoded content. *)
Inductive JSON :=
| JNull
| JBool (b : bool)
| JNumber (literal : string)
| JString (s : string)
| JArray
| JObject.

Inductive error :=
| NumError (input : string)          (* strconv: invalid syntax or out of range *)
| UnmarshalTypeError (value : JSON). (* encoding/json: wrong shape for the target *)

(** [json.Unmarshal(data, &strVal)] with [strVal] a fresh [string]:
    [null] leaves the zero value in place. *)
Definition json_Unmarshal_string (data : JSON) : error + string :=
  match data with
  | JString s => inr s
  | JNull => inr ""
  | _ => inl (UnmarshalTypeError data)
  end.

(** [json.Unmarshal(data, &intVal)] with [intVal] a fresh [int]: the
    literal must be a decimal integer within range. *)
Definition json_Unmarshal_int (data : JSON) : error + Z :=
  match data with
  | JNumber literal =>
      match strconv.Atoi literal with
      | Some n => inr n
      | None => inl (UnmarshalTypeError data)
      end
  | JNull => inr 0
  | _ => inl (UnmarshalTypeError data)
  end.

(** The method [UnmarshalJSON] of [SqkValue]: the error, or the value it
    stores in its receiver. *)
Definition SqkValue_UnmarshalJSON (data : JSON) : error + Z :=
  match json_Unmarshal_string data with
  | inr strVal =>
      if String.eqb strVal "" then inr 0
      else
        match strconv.Atoi strVal with
        | None => inl (NumError strVal)
        | Some intVal => inr intVal
        end
  | inl _ =>
      match json_Unmarshal_int data with
      | inl err => inl err
      | inr intVal => inr intVal
      end
  end.

(** [json.Unmarshal(data, &intVal)] with [intVal] a fresh [int64], and
    [strconv.ParseInt(s, 10, 64)]: on a 64-bit platform these are
    [json_Unmarshal_int] and [strconv.Atoi]. *)

(** The method [UnmarshalJSON] of [LastDvValue]. *)
Definition LastDvValue_UnmarshalJSON (data : JSON) : error + Z :=
  match json_Unmarshal_string data with
  | inr strVal =>
      match strconv.Atoi strVal with
      | None => inl (NumError strVal)
      | Some intVal => inr intVal
      end
  | inl _ =>
      match json_Unmarshal_int data with
      | inl err => inl err
      | inr intVal => inr intVal
      end
  end.

(** The error of the four categorical fields: the name of the type and the
    data that could not be read. *)
Inductive field_error :=
| CouldNotUnmarshal (type_name : string) (data : JSON).

(** The body shared, word for word, by the [UnmarshalJSON] methods of
    [WTCValue], [SpeciesValue], [EngTypeValue] and [EngMountValue]: a string
    is kept, a number is written out with [strconv.Itoa]. *)
Definition string_or_number (type_name : string) (data : JSON)
  : field_error + string :=
  match json_Unmarshal_string data with
  | inr strVal => inr strVal
  | inl _ =>
      match json_Unmarshal_int data with
      | inr numVal => inr (strconv.Itoa numVal)
      | inl _ => inl (CouldNotUnmarshal type_name data)
      end
  end.

Definition WTCValue_UnmarshalJSON : JSON -> field_error + string :=
  string_or_number "WTCValue".
Definition SpeciesValue_UnmarshalJSON : JSON -> field_error + string :=
  string_or_number "SpeciesValue".
Definition EngTypeValue_UnmarshalJSON : JSON -> field_error + string :=
  string_or_number "EngTypeValue".
Definition EngMountValue_UnmarshalJSON : JSON -> field_error + string :=
  string_or_number "EngMountValue".

End aircraft.

(** ** Package [fetch] *)
Module fetch.

(** [url.Values]: every key with its list of values. *)
Abbreviation Values := (gmap string (list string)).

(** [Values.Set]: replaces whatever values the key had by the one value. *)
Definition Values_Set (key value : string) (q : Values) : Values :=
  <[key := [value]]> q.

(** [Values.Get]: the first value of the key, or the empty string. *)
Definition Values_Get (key : string) (q : Values) : string :=
  match q !! key with
  | Some (v :: _) => v
  | _ => ""
  end.

(** A parsed [url.URL]; [Rest] is the scheme and path, kept as written. *)
Record URL := {
  Host : string;
  Rest : string;
  Query : Values
}.

Record Cookie := { Name : string; Value : string }.

(** What the client sends: method, URL with its final query, the form of a
    POST body, and the two headers that carry credentials. *)
Record Request := {
  Method : string;
  Target : URL;
  Form : Values;
  HeaderCookie : option string;
  BasicAuth : option (string * string)
}.

(** What the client reads off a response.  [Body] is [None] when reading
    the body fails. *)
Record Response := {
  StatusCode : Z;
  Location : string;
  ContentType : string;
  Cookies : list Cookie;
  Body : option string
}.

(** The world a [Fetcher] runs in.  [client_Do] answers a request given the
    requests sent before it (newest first); [None] is a transport error.
    Redirects are never followed ([CheckRedirect] returns
    [ErrUseLastResponse]), so a 301 or 302 is an ordinary response. *)
Record Env := {
  url_Parse : string -> option URL;
  strconv_FormatFloat : float -> string;
  client_Do : list Request -> Request -> option Response;
  json_Unmarshal : string -> option aircraft.AircraftList
}.

Record Fetcher := {
  BaseURL : string;
  AircraftType : string;
  MinAltitude : Z;
  MaxAltitude : Z;
  Military : bool;
  Operator : string;
  FlightNumber : string;
  UserLat : float;
  UserLong : float;
  MaxDistance : float;
  Username : string;
  Password : string;
  sessionCookie : string;
  authMethod : string
}.

Definition NewFetcher (baseURL : string) : Fetcher :=
  {| BaseURL := baseURL; AircraftType := ""; MinAltitude := 0;
     MaxAltitude := 0; Military := false; Operator := "";
     FlightNumber := ""; UserLat := 0; UserLong := 0; MaxDistance := 0;
     Username := ""; Password := ""; sessionCookie := ""; authMethod := "" |}.

Definition SetFilters (aircraftType : string) (minAltitude maxAltitude : Z)
    (military : bool) (operator flightNumber : string) (f : Fetcher) : Fetcher :=
  {| BaseURL := BaseURL f; AircraftType := aircraftType;
     MinAltitude := minAltitude; MaxAltitude := maxAltitude;
     Military := military; Operator := operator;
     FlightNumber := flightNumber; UserLat := UserLat f;
     UserLong := UserLong f; MaxDistance := MaxDistance f;
     Username := Username f; Password := Password f;
     sessionCookie := sessionCookie f; authMethod := authMethod f |}.

Definition SetLocation (lat lng maxDistance : float) (f : Fetcher) : Fetcher :=
  {| BaseURL := BaseURL f; AircraftType := AircraftType f;
     MinAltitude := MinAltitude f; MaxAltitude := MaxAltitude f;
     Military := Military f; Operator := Operator f;
     FlightNumber := FlightNumber f; UserLat := lat;
     UserLong := lng; MaxDistance := maxDistance;
     Username := Username f; Password := Password f;
     sessionCookie := sessionCookie f; authMethod := authMethod f |}.

Definition SetAuth (username password : string) (f : Fetcher) : Fetcher :=
  {| BaseURL := BaseURL f; AircraftType := AircraftType f;
     MinAltitude := MinAltitude f; MaxAltitude := MaxAltitude f;
     Military := Military f; Operator := Operator f;
     FlightNumber := FlightNumber f; UserLat := UserLat f;
     UserLong := UserLong f; MaxDistance := MaxDistance f;
     Username := username; Password := password;
     sessionCookie := sessionCookie f; authMethod := authMethod f |}.

(** The two fields the authentication code assigns. *)
Definition set_session (cookie method : string) (f : Fetcher) : Fetcher :=
  {| BaseURL := BaseURL f; AircraftType := AircraftType f;
     MinAltitude := MinAltitude f; MaxAltitude := MaxAltitude f;
     Military := Military f; Operator := Operator f;
     FlightNumber := FlightNumber f; UserLat := UserLat f;
     UserLong := UserLong f; MaxDistance := MaxDistance f;
     Username := Username f; Password := Password f;
     sessionCookie := cookie; authMethod := method |}.

Definition set_authMethod (method : string) (f : Fetcher) : Fetcher :=
  set_session (sessionCookie f) method f.

Inductive error :=
| ErrCredentialsRequired                 (* username and password required for login *)
| ErrAllMethodsFailed                    (* all authentication methods failed *)
| ErrInvalidBaseURL                      (* invalid base URL: ... *)
| ErrNewRequest                          (* failed to create ... request *)
| ErrTransport                           (* the error of client.Do *)
| ErrNoRauthCookie                       (* no rauth cookie found in login response *)
| ErrBasicNotAccepted                    (* HTTP Basic Auth not accepted *)
| ErrURLAuthNotAccepted                  (* URL-based auth not accepted *)
| ErrAuthenticationRequired              (* authentication required *)
| ErrAuthenticationFailed (cause : error)    (* authentication failed: ... *)
| ErrReauthenticationFailed (cause : error)  (* re-authentication failed: ... *)
| ErrStatus (code : Z)                   (* HTTP request failed with status ... *)
| ErrReadBody                            (* the error of io.ReadAll *)
| ErrNotJSON (contentType : string)      (* expected JSON response, got ... *)
| ErrDecode.                             (* the error of json.Unmarshal *)

(** The function of the package that sent a request. *)
Inductive Origin := ByFormLogin | ByBasicAuth | ByURLAuth | ByNoAuth | ByFetch.

Definition Origin_eqb (a b : Origin) : bool :=
  match a, b with
  | ByFormLogin, ByFormLogin | ByBasicAuth, ByBasicAuth
  | ByURLAuth, ByURLAuth | ByNoAuth, ByNoAuth | ByFetch, ByFetch => true
  | _, _ => false
  end.

Record Sent := { origin : Origin; request : Request }.

(** The fetcher together with the requests it has sent, newest first, each
    with the function that sent it. *)
Record State := { fetcher : Fetcher; sent : list Sent }.

(** How many of the requests sent came from the given function. *)
Definition count_sent (o : Origin) (st : State) : nat :=
  length (List.filter (fun s => Origin_eqb (origin s) o) (sent st)).

(** A computation that may fail and, either way, leaves a state behind. *)
Definition M (A : Type) : Type := State -> (error + A) * State.

Definition ret {A} (a : A) : M A := fun st => (inr a, st).
Definition fail {A} (e : error) : M A := fun st => (inl e, st).
Definition bind {A B} (m : M A) (k : A -> M B) : M B :=
  fun st =>
    match m st with
    | (inr a, st') => k a st'
    | (inl e, st') => (inl e, st')
    end.
Definition get_fetcher : M Fetcher := fun st => (inr (fetcher st), st).
Definition modify_fetcher (g : Fetcher -> Fetcher) : M unit :=
  fun st => (inr tt, {| fetcher := g (fetcher st); sent := sent st |}).

Notation "'let*' x ':=' m 'in' k" := (bind m (fun x => k))
  (at level 10, x name, m at level 100, k at level 200).

(** [f.client.Do(req)]: the request goes on record, the server answers from
    what it has seen so far. *)
Definition Do (env : Env) (o : Origin) (req : Request) : M Response :=
  fun st =>
    let st' :=
      {| fetcher := fetcher st;
         sent := {| origin := o; request := req |} :: sent st |} in
    match client_Do env (map request (sent st)) req with
    | Some resp => (inr resp, st')
    | None => (inl ErrTransport, st')
    end.

(** [url.Parse], and [http.NewRequest] with a URL given as text: the request
    cannot be built when the text does not parse.  For [u.String()], the text
    of a URL that [url.Parse] returned, [http.NewRequest] succeeds, and the
    request is built from [u] directly. *)
Definition Parse (env : Env) (rawURL : string) (e : error) : M URL :=
  match url_Parse env rawURL with
  | Some u => ret u
  | None => fail e
  end.

Definition with_Query (q : Values) (u : URL) : URL :=
  {| Host := Host u; Rest := Rest u; Query := q |}.

Definition plain_request (method : string) (u : URL) : Request :=
  {| Method := method; Target := u; Form := ∅;
     HeaderCookie := None; BasicAuth := None |}.

Definition is_json (contentType : string) : bool :=
  strings.Contains contentType "application/json".

(** The first cookie named [rauth], compared case-insensitively. *)
Fixpoint find_rauth (cookies : list Cookie) : option Cookie :=
  match cookies with
  | [] => None
  | c :: rest =>
      if strings.EqualFold (Name c) "rauth" then Some c else find_rauth rest
  end.

Definition tryFormLogin (env : Env) : M unit :=
  let* f := get_fetcher in
  let* baseURL := Parse env (BaseURL f) ErrInvalidBaseURL in
  let loginURL := "https://" ++ Host baseURL ++ "/login.php" in
  let formData :=
    Values_Set "password" (Password f) (Values_Set "username" (Username f) ∅) in
  let* u := Parse env loginURL ErrNewRequest in
  let* resp := Do env ByFormLogin
                   {| Method := "POST"; Target := u; Form := formData;
                      HeaderCookie := None; BasicAuth := None |} in
  match find_rauth (Cookies resp) with
  | Some cookie =>
      modify_fetcher (set_session (Name cookie ++ "=" ++ Value cookie) "session")
  | None => fail ErrNoRauthCookie
  end.

Definition tryBasicAuth (env : Env) : M unit :=
  let* f := get_fetcher in
  let testURL := BaseURL f ++ "?test=1" in
  let* u := Parse env testURL ErrNewRequest in
  let* resp := Do env ByBasicAuth
                   {| Method := "GET"; Target := u; Form := ∅;
                      HeaderCookie := None;
                      BasicAuth := Some (Username f, Password f) |} in
  if is_json (ContentType resp)
  then modify_fetcher (set_authMethod "basic")
  else fail ErrBasicNotAccepted.

Definition tryURLAuth (env : Env) : M unit :=
  let* f := get_fetcher in
  let* u := Parse env (BaseURL f) ErrInvalidBaseURL in
  let q := Values_Set "password" (Password f)
             (Values_Set "username" (Username f) (Query u)) in
  let* resp := Do env ByURLAuth (plain_request "GET" (with_Query q u)) in
  if is_json (ContentType resp)
  then modify_fetcher (set_authMethod "url")
  else fail ErrURLAuthNotAccepted.

Definition tryNoAuth (env : Env) : M unit :=
  let* f := get_fetcher in
  let* u := Parse env (BaseURL f) ErrNewRequest in
  let* resp := Do env ByNoAuth (plain_request "GET" u) in
  if is_json (ContentType resp)
  then modify_fetcher (set_authMethod "none")
  else fail ErrAuthenticationRequired.

(** The loop of [login] over its table of methods: the first that returns
    no error ends it; the error of a method that fails is only logged. *)
Fixpoint try_methods (methods : list (M unit)) : M unit :=
  match methods with
  | [] => fail ErrAllMethodsFailed
  | method :: rest =>
      fun st =>
        match method st with
        | (inr tt, st') => (inr tt, st')
        | (inl _, st') => try_methods rest st'
        end
  end.

Definition authMethods (env : Env) : list (M unit) :=
  [tryFormLogin env; tryBasicAuth env; tryURLAuth env; tryNoAuth env].

Definition login (env : Env) : M unit :=
  let* f := get_fetcher in
  if String.eqb (Username f) "" || String.eqb (Password f) ""
  then fail ErrCredentialsRequired
  else try_methods (authMethods env).

(** The first statement of [Fetch]: log in when credentials are set and no
    method is established yet. *)
Definition authenticate (env : Env) : M unit :=
  let* f := get_fetcher in
  if (negb (String.eqb (Username f) "") || negb (String.eqb (Password f) ""))
     && String.eqb (authMethod f) ""
  then
    fun st =>
      match login env st with
      | (inl err, st') => (inl (ErrAuthenticationFailed err), st')
      | (inr tt, st') => (inr tt, st')
      end
  else ret tt.

(** The filter block of [Fetch], applied to the query of the base URL.
    (The counter [filtersApplied] only feeds a log line.) *)
Definition apply_filters (env : Env) (f : Fetcher) (q : Values) : Values :=
  let q := if negb (String.eqb (AircraftType f) "")
           then Values_Set "fTypQ" (AircraftType f) q else q in
  let q := if 0 <? MinAltitude f
           then Values_Set "fAltL" (strconv.Itoa (MinAltitude f)) q else q in
  let q := if 0 <? MaxAltitude f
           then Values_Set "fAltU" (strconv.Itoa (MaxAltitude f)) q else q in
  let q := if Military f then Values_Set "fMilQ" "1" q else q in
  let q := if negb (String.eqb (Operator f) "")
           then Values_Set "fOpQ" (Operator f) q else q in
  let q := if negb (String.eqb (FlightNumber f) "")
           then Values_Set "fCallQ" (FlightNumber f) q else q in
  if negb (UserLat f =? 0)%float && negb (UserLong f =? 0)%float
  then
    let q := Values_Set "lat" (strconv_FormatFloat env (UserLat f)) q in
    let q := Values_Set "lng" (strconv_FormatFloat env (UserLong f)) q in
    if (0 <? MaxDistance f)%float
    then Values_Set "fDstU" (strconv_FormatFloat env (MaxDistance f)) q
    else q
  else q.

(** The guard of the location block of [apply_filters]. *)
Definition location_sent (f : Fetcher) : bool :=
  negb (UserLat f =? 0)%float && negb (UserLong f =? 0)%float.

(** The credentials added to the query when URL-based auth is in use. *)
Definition apply_url_auth (f : Fetcher) (q : Values) : Values :=
  if String.eqb (authMethod f) "url"
  then Values_Set "password" (Password f) (Values_Set "username" (Username f) q)
  else q.

(** The poll request: the base URL with the final query, and the header of
    the established method. *)
Definition poll_request (env : Env) (f : Fetcher) (u : URL) : Request :=
  let q := apply_url_auth f (apply_filters env f (Query u)) in
  {| Method := "GET";
     Target := with_Query q u;
     Form := ∅;
     HeaderCookie :=
       if String.eqb (authMethod f) "session"
          && negb (String.eqb (sessionCookie f) "")
       then Some (sessionCookie f) else None;
     BasicAuth :=
       if String.eqb (authMethod f) "basic"
       then Some (Username f, Password f) else None |}.

Definition StatusOK : Z := 200.
Definition StatusMovedPermanently : Z := 301.
Definition StatusFound : Z := 302.

(** The test that sends [Fetch] back to [login]. *)
Definition is_login_redirect (resp : Response) : bool :=
  ((StatusCode resp =? StatusFound) || (StatusCode resp =? StatusMovedPermanently))
  && strings.Contains (Location resp) "login.php".

Definition startsWith (s prefix : string) : bool := strings.HasPrefix s prefix.

(** The tail of [Fetch]: status, body, content type, JSON. *)
Definition read_response (env : Env) (resp : Response)
  : error + aircraft.AircraftList :=
  if negb (StatusCode resp =? StatusOK) then inl (ErrStatus (StatusCode resp))
  else
    match Body resp with
    | None => inl ErrReadBody
    | Some body =>
        let contentType := ContentType resp in
        if String.eqb contentType ""
           || (negb (String.eqb contentType "application/json")
               && negb (startsWith contentType "application/json"))
        then inl (ErrNotJSON contentType)
        else
          match json_Unmarshal env body with
          | Some acList => inr acList
          | None => inl ErrDecode
          end
    end.

(** [Fetch] up to and including [f.client.Do(req)]. *)
Definition send_poll (env : Env) : M Response :=
  let* _u := authenticate env in
  let* f := get_fetcher in
  let* u := Parse env (BaseURL f) ErrInvalidBaseURL in
  Do env ByFetch (poll_request env f u).

(** The two assignments that forget an expired session. *)
Definition clear_session (st : State) : State :=
  {| fetcher := set_session "" "" (fetcher st); sent := sent st |}.

(** [Fetch].  The method calls itself after a successful re-login; [fuel]
    bounds the depth of these calls, and [None] says the bound was reached
    with the call still in progress. *)
Fixpoint Fetch (env : Env) (fuel : nat) (st : State)
  : option (error + aircraft.AircraftList) * State :=
  match fuel with
  | O => (None, st)
  | S fuel' =>
      match send_poll env st with
      | (inl err, st1) => (Some (inl err), st1)
      | (inr resp, st1) =>
          if is_login_redirect resp then
            match login env (clear_session st1) with
            | (inl err, st2) => (Some (inl (ErrReauthenticationFailed err)), st2)
            | (inr tt, st2) => Fetch env fuel' st2
            end
          else (Some (read_response env resp), st1)
      end
  end.

(** *** What the authentication leaves alone *)

(** [f] is [g] up to the two session fields. *)
Definition same_config (f g : Fetcher) : Prop :=
  exists cookie method, f = set_session cookie method g.

(** The value of [authMethod] that each authentication function assigns. *)
Definition method_of (o : Origin) : string :=
  match o with
  | ByFormLogin => "session"
  | ByBasicAuth => "basic"
  | ByURLAuth => "url"
  | ByNoAuth => "none"
  | ByFetch => ""
  end.

(** The requests of [st'] are those of [st] with [n] more in front. *)
Definition sent_more (n : nat) (st st' : State) : Prop :=
  exists newer, sent st' = (newer ++ sent st)%list /\ length newer = n.

(** What one authentication function may do: send one request of its own,
    and on success set the method that belongs to it. *)
Definition auth_step (o : Origin) (step : M unit) : Prop :=
  forall st,
    match step st with
    | (inl _, st') =>
        fetcher st' = fetcher st
        /\ (sent st' = sent st
            \/ exists req, sent st' = {| origin := o; request := req |} :: sent st)
    | (inr _, st') =>
        same_config (fetcher st') (fetcher st)
        /\ authMethod (fetcher st') = method_of o
        /\ exists req, sent st' = {| origin := o; request := req |} :: sent st
    end.

(** From [st] to [st'] at most [n] requests were sent, none of them a poll. *)
Definition auth_requests (n : nat) (st st' : State) : Prop :=
  exists newer,
    sent st' = (newer ++ sent st)%list
    /\ (length newer <= n)%nat
    /\ Forall (fun s => origin s <> ByFetch) newer.

(** The newest request of [st] came from an authentication function, and
    [authMethod] is the method of that function. *)
Definition method_of_newest (st : State) : Prop :=
  exists o req rest,
    sent st = {| origin := o; request := req |} :: rest
    /\ o <> ByFetch
    /\ authMethod (fetcher st) = method_of o.

(** *** [Client.Get] *)

Definition Second : Z := 1000000000.

Inductive GetError :=
| GetTransport            (* the error of httpClient.Do *)
| GetHTTP (status : Z).   (* HTTP <status>: ... *)

Inductive ClientError :=
| ErrCreateRequest                                     (* failed to create request: ... *)
| ErrFailedAfter (n : Z) (lastErr : option GetError).  (* failed after n attempts: ... *)

(** What one call of [Get] did: the result, the requests sent (newest
    first), and the time spent in [time.Sleep]. *)
Record GetRun := {
  get_result : ClientError + Response;
  get_sent : list Request;
  get_slept : Z
}.

Definition is_2xx (resp : Response) : bool :=
  (200 <=? StatusCode resp) && (StatusCode resp <? 300).

Definition is_4xx (resp : Response) : bool :=
  (400 <=? StatusCode resp) && (StatusCode resp <? 500).

(** The loop [for attempt := 0; attempt <= 3; attempt++] of [Get], with [n]
    rounds left to run. *)
Fixpoint Get_loop (env : Env) (req : Request) (n attempt : nat)
    (lastErr : option GetError) (sent : list Request) (slept : Z) : GetRun :=
  match n with
  | O => {| get_result := inl (ErrFailedAfter 3 lastErr);
            get_sent := sent; get_slept := slept |}
  | S n' =>
      let slept :=
        if (0 <? attempt)%nat then slept + Z.of_nat attempt * Second else slept in
      match client_Do env sent req with
      | None =>
          Get_loop env req n' (S attempt) (Some GetTransport) (req :: sent) slept
      | Some resp =>
          if is_2xx resp then
            {| get_result := inr resp; get_sent := req :: sent;
               get_slept := slept |}
          else if is_4xx resp then
            {| get_result :=
                 inl (ErrFailedAfter 3 (Some (GetHTTP (StatusCode resp))));
               get_sent := req :: sent; get_slept := slept |}
          else
            Get_loop env req n' (S attempt)
              (Some (GetHTTP (StatusCode resp))) (req :: sent) slept
      end
  end.

(** [Client.Get]: the request is built once and sent up to four times. *)
Definition Get (env : Env) (url : string) : GetRun :=
  match url_Parse env url with
  | None => {| get_result := inl ErrCreateRequest; get_sent := []; get_slept := 0 |}
  | Some u => Get_loop env (plain_request "GET" u) 4 0 None [] 0
  end.

(** An answer after which [Get] tries again: a transport error, or a status
    outside 2xx and 4xx. *)
Definition retried (answer : option Response) : bool :=
  match answer with
  | None => true
  | Some resp => negb (is_2xx resp) && negb (is_4xx resp)
  end.

(** The error [Get] keeps of an answer it retries after. *)
Definition retry_error (answer : option Response) : GetError :=
  match answer with
  | None => GetTransport
  | Some resp => GetHTTP (StatusCode resp)
  end.

(** The sleep before attempt number [attempt]. *)
Definition sleep_before (attempt : nat) : Z :=
  if (0 <? attempt)%nat then Z.of_nat attempt * Second else 0.

End fetch.

(** ** Package [monitor] *)
Module monitor.

(** *** [time] *)

Definition Nanosecond : Z := 1.
Definition Second : Z := 1000000000 * Nanosecond.
Definition Minute : Z := 60 * Second.

Definition minDuration : Z := - 2 ^ 63.
Definition maxDuration : Z := 2 ^ 63 - 1.

(** [t.Sub(u)]: the duration [t - u], held at the largest or smallest
    [Duration] when the difference does not fit. *)
Definition Time_Sub (t u : Z) : Z :=
  Z.max minDuration (Z.min maxDuration (t - u)).

(** [t.Add(d)]. *)
Definition Time_Add (t d : Z) : Z := t + d.

(** [t.Before(u)]. *)
Definition Time_Before (t u : Z) : bool := t <? u.

(** *** Data *)

Record AircraftTracker := {
  LastDistance : float;
  LastSeen : Z;
  Notified : bool
}.

(** The fields of [config.Config] the monitor reads after construction. *)
Record Config := {
  Latitude : float;
  Longitude : float;
  Enabled : bool;
  NotifyOnCloserOnly : bool;
  ReNotifyAfter : Z
}.

(** The arguments of one call of [Notifier.Send]. *)
Record SendArgs := {
  callsign : string;
  aircraftType : string;
  altitude : Z;
  speed : float;
  distance : float;
  direction : string;
  previousDistance : float
}.

Inductive error :=
| ErrFetch (cause : string)   (* failed to fetch aircraft data: ... *)
| ErrSend (cause : string).   (* failed to send notification: ... *)

Inductive LogEntry :=
| LogAircraftDetected (call : string) (notifying : bool)
| LogProcessFailed (call : string) (err : error)
| LogFetchFailed (err : error).

(** What the monitor reaches through its interfaces and imports: the
    float64 functions of package [geo], the clock, the [Notifier] and the
    [Fetcher].  The clock and the fetcher answer by the number of earlier
    calls, the notifier by the earlier calls themselves (newest first);
    [Some cause] is a non-nil error. *)
Record Deps := {
  geo_CalculateDistance : float -> float -> float -> float -> float;
  geo_CalculateBearing : float -> float -> float -> float -> float;
  geo_BearingToDirection : float -> string;
  time_Now : nat -> Z;
  notifier_Send : list SendArgs -> SendArgs -> option string;
  fetcher_Fetch : nat -> string + aircraft.AircraftList
}.

(** The mutable part of [Monitor], with the calls made so far. *)
Record Monitor := {
  aircraftHistory : gmap string AircraftTracker;
  clock : nat;                (* calls of time.Now *)
  fetches : nat;              (* calls of fetcher.Fetch *)
  sends : list SendArgs;      (* calls of notifier.Send, newest first *)
  log : list LogEntry         (* newest first *)
}.

Definition NewMonitorWithDeps : Monitor :=
  {| aircraftHistory := ∅; clock := O; fetches := O; sends := []; log := [] |}.

Definition set_history (h : gmap string AircraftTracker) (m : Monitor) : Monitor :=
  {| aircraftHistory := h; clock := clock m; fetches := fetches m;
     sends := sends m; log := log m |}.

Definition tick_clock (m : Monitor) : Monitor :=
  {| aircraftHistory := aircraftHistory m; clock := S (clock m);
     fetches := fetches m; sends := sends m; log := log m |}.

Definition count_fetch (m : Monitor) : Monitor :=
  {| aircraftHistory := aircraftHistory m; clock := clock m;
     fetches := S (fetches m); sends := sends m; log := log m |}.

Definition record_send (args : SendArgs) (m : Monitor) : Monitor :=
  {| aircraftHistory := aircraftHistory m; clock := clock m;
     fetches := fetches m; sends := args :: sends m; log := log m |}.

Definition add_log (e : LogEntry) (m : Monitor) : Monitor :=
  {| aircraftHistory := aircraftHistory m; clock := clock m;
     fetches := fetches m; sends := sends m; log := e :: log m |}.

(** *** The tracker policy *)

Definition getAircraftIdentifier (ac : aircraft.Aircraft) : string :=
  if negb (String.eqb (aircraft.Icao ac) "") then aircraft.Icao ac
  else if negb (String.eqb (aircraft.Call ac) "") then aircraft.Call ac
  else aircraft.Type_ ac ++ "_" ++ strconv.Itoa (aircraft.Alt ac).

(** The body of [shouldNotifyAircraft] between [Lock] and [Unlock], with
    the value [now] that [time.Now()] returned. *)
Definition notify_decision (cfg : Config) (now : Z) (aircraftID : string)
    (currentDistance : float) (history : gmap string AircraftTracker)
  : bool * gmap string AircraftTracker :=
  match history !! aircraftID with
  | None =>
      (true,
       <[aircraftID := {| LastDistance := currentDistance;
                          LastSeen := now;
                          Notified := true |}]> history)
  | Some tracker =>
      let isGettingCloser := (currentDistance <? LastDistance tracker)%float in
      let shouldNotifyByTime :=
        if 0 <? ReNotifyAfter cfg
        then ReNotifyAfter cfg <? Time_Sub now (LastSeen tracker)
        else false in
      let updated (notified : bool) :=
        <[aircraftID := {| LastDistance := currentDistance;
                           LastSeen := now;
                           Notified := notified |}]> history in
      if NotifyOnCloserOnly cfg then
        if isGettingCloser || shouldNotifyByTime
        then (true, updated true)
        else (false, updated (Notified tracker))
      else (true, updated true)
  end.

Definition shouldNotifyAircraft (deps : Deps) (cfg : Config)
    (aircraftID : string) (currentDistance : float) (m : Monitor)
  : bool * Monitor :=
  let now := time_Now deps (clock m) in
  let '(decision, history) :=
    notify_decision cfg now aircraftID currentDistance (aircraftHistory m) in
  (decision, set_history history (tick_clock m)).

Definition no_location (cfg : Config) : bool :=
  (Latitude cfg =? 0)%float && (Longitude cfg =? 0)%float.

Definition calculateDistance (deps : Deps) (cfg : Config) (acLat acLong : float)
  : float :=
  if no_location cfg then 0%float
  else geo_CalculateDistance deps (Latitude cfg) (Longitude cfg) acLat acLong.

Definition calculateBearing (deps : Deps) (cfg : Config) (acLat acLong : float)
  : float :=
  if no_location cfg then 0%float
  else geo_CalculateBearing deps (Latitude cfg) (Longitude cfg) acLat acLong.

(** [processAircraft]: the error it returns, and the monitor afterwards. *)
Definition processAircraft (deps : Deps) (cfg : Config)
    (ac : aircraft.Aircraft) (m : Monitor) : option error * Monitor :=
  let distance := calculateDistance deps cfg (aircraft.Lat ac) (aircraft.Long ac) in
  let bearing := calculateBearing deps cfg (aircraft.Lat ac) (aircraft.Long ac) in
  let direction := geo_BearingToDirection deps bearing in
  let aircraftID := getAircraftIdentifier ac in
  let previousDistance :=
    match aircraftHistory m !! aircraftID with
    | Some tracker => LastDistance tracker
    | None => 0%float
    end in
  let '(shouldNotify, m) := shouldNotifyAircraft deps cfg aircraftID distance m in
  let m := add_log (LogAircraftDetected (aircraft.Call ac) shouldNotify) m in
  if Enabled cfg && shouldNotify then
    let args :=
      {| callsign := aircraft.Call ac; aircraftType := aircraft.Type_ ac;
         altitude := aircraft.Alt ac; speed := aircraft.Spd ac;
         distance := distance; direction := direction;
         previousDistance := previousDistance |} in
    match notifier_Send deps (sends m) args with
    | Some cause => (Some (ErrSend cause), record_send args m)
    | None => (None, record_send args m)
    end
  else (None, m).

(** One round of the loop over [acList.Aircraft]: the error of
    [processAircraft] is logged and the loop goes on. *)
Definition process_one (deps : Deps) (cfg : Config)
    (m : Monitor) (ac : aircraft.Aircraft) : Monitor :=
  match processAircraft deps cfg ac m with
  | (Some err, m') => add_log (LogProcessFailed (aircraft.Call ac) err) m'
  | (None, m') => m'
  end.

Definition fetchAndProcess (deps : Deps) (cfg : Config) (m : Monitor)
  : option error * Monitor :=
  match fetcher_Fetch deps (fetches m) with
  | inl cause => (Some (ErrFetch cause), count_fetch m)
  | inr acList =>
      (None, fold_left (process_one deps cfg) (aircraft.Aircraft_ acList)
               (count_fetch m))
  end.

(** The loop of [cleanupAircraftHistory]: every entry of the map is
    visited once, and deleted when it was last seen before the cutoff. *)
Definition sweep_step (cutoffTime : Z) (entry : string * AircraftTracker)
    (acc : gmap string AircraftTracker) : gmap string AircraftTracker :=
  let '(aircraftID, tracker) := entry in
  if Time_Before (LastSeen tracker) cutoffTime
  then delete aircraftID acc else acc.

Definition sweep (cutoffTime : Z) (history : gmap string AircraftTracker)
  : gmap string AircraftTracker :=
  foldr (sweep_step cutoffTime) history (map_to_list history).

Definition cleanupAircraftHistory (deps : Deps) (m : Monitor) : Monitor :=
  let now := time_Now deps (clock m) in
  let cutoffTime := Time_Add now (-15 * Minute) in
  set_history (sweep cutoffTime (aircraftHistory m)) (tick_clock m).

(** *** The loop *)

(** The two tickers of [monitorLoop]. *)
Inductive Tick := TickerC | CleanupTickerC.

Definition poll (deps : Deps) (cfg : Config) (m : Monitor) : Monitor :=
  match fetchAndProcess deps cfg m with
  | (Some err, m') => add_log (LogFetchFailed err) m'
  | (None, m') => m'
  end.

Definition on_tick (deps : Deps) (cfg : Config) (m : Monitor) (t : Tick)
  : Monitor :=
  match t with
  | TickerC => poll deps cfg m
  | CleanupTickerC => cleanupAircraftHistory deps m
  end.

(** [monitorLoop] for the ticks that arrive before the stop signal: one
    poll at once, then one step per tick. *)
Definition monitorLoop (deps : Deps) (cfg : Config) (ticks : list Tick)
    (m : Monitor) : Monitor :=
  fold_left (on_tick deps cfg) ticks (poll deps cfg m).


(** The same configuration with another notification-enabled flag, and the
    same collaborators with another [Notifier]. *)
Definition with_Enabled (enabled : bool) (cfg : Config) : Config :=
  {| Latitude := Latitude cfg; Longitude := Longitude cfg;
     Enabled := enabled; NotifyOnCloserOnly := NotifyOnCloserOnly cfg;
     ReNotifyAfter := ReNotifyAfter cfg |}.


(** The tracking state of a monitor: the map, and how often the clock and
    the fetcher were consulted. *)
Definition tracking (m : Monitor) : gmap string AircraftTracker * nat * nat :=
  (aircraftHistory m, clock m, fetches m).

(** The log lines "Aircraft detected" written so far. *)
Definition detected (m : Monitor) : nat :=
  length (List.filter (fun e => match e with
                           | LogAircraftDetected _ _ => true
                           | _ => false
                           end) (log m)).

(** The errors of [processAircraft] reported so far. *)
Definition failures (m : Monitor) : nat :=
  length (List.filter (fun e => match e with
                           | LogProcessFailed _ _ => true
                           | _ => false
                           end) (log m)).

(** *** One aircraft over several polls *)

(** [notify_decision] for the same identifier at each of the observations
    (time, distance), in order: the decisions and the map at the end. *)
Fixpoint observe (cfg : Config) (aircraftID : string)
    (observations : list (Z * float)) (history : gmap string AircraftTracker)
  : list bool * gmap string AircraftTracker :=
  match observations with
  | [] => ([], history)
  | (now, currentDistance) :: rest =>
      let '(decision, history) :=
        notify_decision cfg now aircraftID currentDistance history in
      let '(decisions, history) := observe cfg aircraftID rest history in
      (decision :: decisions, history)
  end.

(** Whether each distance is below the one before it, from [previous] on. *)
Fixpoint closer_than_previous (previous : float) (distances : list float)
  : list bool :=
  match distances with
  | [] => []
  | d :: rest => (d <? previous)%float :: closer_than_previous d rest
  end.

(** The ticks of the poll ticker among the ticks. *)
Definition poll_ticks (ticks : list Tick) : nat :=
  length (List.filter (fun t => match t with
                                | TickerC => true
                                | CleanupTickerC => false
                                end) ticks).

(** Every tracker was last seen at one of the first [n] readings of the
    clock. *)
Definition seen_at_readings (deps : Deps) (n : nat)
    (history : gmap string AircraftTracker) : Prop :=
  forall aircraftID tracker,
    history !! aircraftID = Some tracker ->
    exists i, (i < n)%nat /\ LastSeen tracker = time_Now deps i.

End monitor.

(** ** Concrete runs used by the examples and counterexamples *)
Module scenarios.

(** *** A monitor whose notifier always fails *)

Definition now0 : Z := 1700000000 * monitor.Second.

Definition TEST1 : aircraft.Aircraft :=
  {| aircraft.Icao := ""; aircraft.Alt := 10000; aircraft.Call := "TEST1";
     aircraft.Lat := 51.625; aircraft.Long := 0.125; aircraft.Spd := 400;
     aircraft.Type_ := "A320"; aircraft.Mil := false |}.

Definition ERR1 : aircraft.Aircraft :=
  {| aircraft.Icao := ""; aircraft.Alt := 10000; aircraft.Call := "ERR1";
     aircraft.Lat := 51.625; aircraft.Long := 0.125; aircraft.Spd := 400;
     aircraft.Type_ := "A320"; aircraft.Mil := false |}.

Definition batch0 : aircraft.AircraftList :=
  {| aircraft.TotalAc := 2; aircraft.Stm := 0;
     aircraft.Aircraft_ := [ERR1; TEST1] |}.

Definition failing_deps : monitor.Deps :=
  {| monitor.geo_CalculateDistance := fun _ _ _ _ => 13.5%float;
     monitor.geo_CalculateBearing := fun _ _ _ _ => 32%float;
     monitor.geo_BearingToDirection :=
       fun b => match geo.BearingToDirection b with
                | Some label => label
                | None => ""
                end;
     monitor.time_Now := fun n => now0 + Z.of_nat n * monitor.Second;
     monitor.notifier_Send := fun _ _ => Some "mock error: test error";
     monitor.fetcher_Fetch := fun _ => inr batch0 |}.

(** The configuration of the package's test: an observer on the Greenwich
    meridian. *)
Definition test_cfg : monitor.Config :=
  {| monitor.Latitude := 51.5; monitor.Longitude := 0;
     monitor.Enabled := true; monitor.NotifyOnCloserOnly := false;
     monitor.ReNotifyAfter := 0 |}.

(** A map with one tracker last seen 20 minutes before [now0] and one last
    seen a minute before it. *)
Definition old_and_recent : gmap string monitor.AircraftTracker :=
  <["old" := {| monitor.LastDistance := 0;
                monitor.LastSeen := now0 - 20 * monitor.Minute;
                monitor.Notified := true |}]>
    (<["recent" := {| monitor.LastDistance := 0;
                      monitor.LastSeen := now0 - 1 * monitor.Minute;
                      monitor.Notified := true |}]> ∅).

(** *** A feed server whose sessions expire *)

Definition radar_url : string := "https://radar.example/VirtualRadar/AircraftList.json".

Definition parse_any (rawURL : string) : option fetch.URL :=
  Some {| fetch.Host := "radar.example"; fetch.Rest := rawURL; fetch.Query := ∅ |}.

Definition empty_list : aircraft.AircraftList :=
  {| aircraft.TotalAc := 0; aircraft.Stm := 0; aircraft.Aircraft_ := [] |}.

Definition login_ok : fetch.Response :=
  {| fetch.StatusCode := 200; fetch.Location := "";
     fetch.ContentType := "text/html";
     fetch.Cookies := [{| fetch.Name := "rauth"; fetch.Value := "token" |}];
     fetch.Body := Some "" |}.

Definition to_login : fetch.Response :=
  {| fetch.StatusCode := 302; fetch.Location := "/login.php";
     fetch.ContentType := "text/html"; fetch.Cookies := [];
     fetch.Body := Some "" |}.

Definition feed : fetch.Response :=
  {| fetch.StatusCode := 200; fetch.Location := "";
     fetch.ContentType := "application/json"; fetch.Cookies := [];
     fetch.Body := Some "{}" |}.

Definition is_GET (req : fetch.Request) : bool :=
  String.eqb (fetch.Method req) "GET".

Definition count_GET (earlier : list fetch.Request) : nat :=
  length (List.filter is_GET earlier).

(** Whether the session is found expired by a [GET] that [n] others came
    before: for the first [k] of them, or ([None]) always. *)
Definition expired (limit : option nat) (n : nat) : bool :=
  match limit with
  | Some k => (n <? k)%nat
  | None => true
  end.

(** The form login always hands out the cookie; a [GET] is sent to the
    login page while the session counts as expired and gets the feed
    after that. *)
Definition expiring_server (limit : option nat)
    (earlier : list fetch.Request) (req : fetch.Request)
  : option fetch.Response :=
  if is_GET req
  then (if expired limit (count_GET earlier) then Some to_login else Some feed)
  else Some login_ok.

Definition expiring_env (limit : option nat) : fetch.Env :=
  {| fetch.url_Parse := parse_any;
     fetch.strconv_FormatFloat := fun _ => "";
     fetch.client_Do := expiring_server limit;
     fetch.json_Unmarshal := fun _ => Some empty_list |}.

(** A fetcher with credentials and an established session. *)
Definition logged_in : fetch.Fetcher :=
  fetch.set_session "rauth=token" "session"
    (fetch.SetAuth "user" "secret" (fetch.NewFetcher radar_url)).

(** A fetcher with a user name and no password, as [NewMonitor] sets it up
    from such a configuration. *)
Definition user_only : fetch.Fetcher :=
  fetch.SetAuth "user" "" (fetch.NewFetcher radar_url).

(** A fetcher for the observer of [test_cfg]: latitude 51.5, longitude 0. *)
Definition on_meridian : fetch.Fetcher :=
  fetch.SetLocation 51.5 0 100 (fetch.NewFetcher radar_url).

Definition start (f : fetch.Fetcher) : fetch.State :=
  {| fetch.fetcher := f; fetch.sent := [] |}.

(** The base URL as [parse_any] reads it, and the two requests a logged-in
    fetcher sends to this server. *)
Definition base : fetch.URL :=
  {| fetch.Host := "radar.example"; fetch.Rest := radar_url; fetch.Query := ∅ |}.

Definition login_request : fetch.Request :=
  {| fetch.Method := "POST";
     fetch.Target := {| fetch.Host := "radar.example";
                        fetch.Rest := "https://radar.example/login.php";
                        fetch.Query := ∅ |};
     fetch.Form := fetch.Values_Set "password" "secret"
                     (fetch.Values_Set "username" "user" ∅);
     fetch.HeaderCookie := None;
     fetch.BasicAuth := None |}.

Definition poll_request (limit : option nat) : fetch.Request :=
  fetch.poll_request (expiring_env limit) logged_in base.

(** *** Servers for [Client.Get] *)

Definition unavailable : fetch.Response :=
  {| fetch.StatusCode := 503; fetch.Location := "";
     fetch.ContentType := "text/html"; fetch.Cookies := [];
     fetch.Body := Some "" |}.

(** 503 to the first request, no answer to the second, the feed from the
    third on. *)
Definition flaky_env : fetch.Env :=
  {| fetch.url_Parse := parse_any;
     fetch.strconv_FormatFloat := fun _ => "";
     fetch.client_Do :=
       fun earlier _ =>
         match length earlier with
         | O => Some unavailable
         | S O => None
         | _ => Some feed
         end;
     fetch.json_Unmarshal := fun _ => Some empty_list |}.

(** 503 to every request. *)
Definition down_env : fetch.Env :=
  {| fetch.url_Parse := parse_any;
     fetch.strconv_FormatFloat := fun _ => "";
     fetch.client_Do := fun _ _ => Some unavailable;
     fetch.json_Unmarshal := fun _ => Some empty_list |}.

(** A fetcher with both credentials and no session yet, and one with none. *)
Definition with_credentials : fetch.Fetcher :=
  fetch.SetAuth "user" "secret" (fetch.NewFetcher radar_url).

Definition anonymous : fetch.Fetcher := fetch.NewFetcher radar_url.

(** *** A monitor without an observer location *)

Definition no_location_cfg : monitor.Config :=
  {| monitor.Latitude := 0; monitor.Longitude := 0;
     monitor.Enabled := true; monitor.NotifyOnCloserOnly := true;
     monitor.ReNotifyAfter := 0 |}.

(** A monitor that tracks [TEST1] at distance 0. *)
Definition tracking_TEST1 : monitor.Monitor :=
  monitor.set_history
    (<["TEST1" := {| monitor.LastDistance := 0; monitor.LastSeen := now0;
                     monitor.Notified := true |}]> ∅)
    monitor.NewMonitorWithDeps.

End scenarios.

(** * Theorems *)

(** ** Package [geo] *)

(** Whatever label [BearingToDirection] returns is one of the sixteen. *)
Lemma BearingToDirection_in_directions (b : float) (s : string) :
  geo.BearingToDirection b = Some s -> In s geo.directions.
Proof.
  unfold geo.BearingToDirection.
  destruct (geo.direction_index b) as [i|]; [|discriminate].
  destruct (i <? 0); [discriminate|].
  apply nth_error_In.
Qed.

(** [nearest_sector] names one of the sixteen labels. *)
Lemma nearest_sector_range (n : Z) : 0 <= geo.nearest_sector n < 16.
Proof. unfold geo.nearest_sector. apply Z.mod_pos_bound. lia. Qed.

(** Ties in exact arithmetic: [k * 22.5 + 11.25] degrees belongs to sector
    [k + 1]. *)
Lemma nearest_sector_boundary (k : Z) :
  0 <= k < 16 -> geo.nearest_sector (90 * k + 45) = (k + 1) mod 16.
Proof.
  intros Hk. unfold geo.nearest_sector.
  rewrite (Z.mod_small (90 * k + 45) 1440) by lia.
  replace (90 * k + 45 + 45) with ((k + 1) * 90) by lia.
  rewrite Z.div_mul by lia. reflexivity.
Qed.

(** C3, as stated, fails at 11.25: the quotient [11.25 / 22.5] is exactly
    one half, and [math.Round] rounds halves away from zero. *)
Lemma BearingToDirection_11_25_not_N :
  geo.BearingToDirection 11.25%float <> Some "N".
Proof. vm_compute. discriminate. Qed.

(** C3 (amended): [BearingToDirection] reduces its input modulo 360
    (negative and >360 inputs included) and returns the label of
    [round(bearing / 22.5) mod 16], halves rounding away from zero, so a
    bearing exactly on a sector boundary takes the label of the next sector
    clockwise: 0 -> N, 11.25 -> NNE, 359.9 (the binary64 next to it, written
    in hexadecimal below) -> N, 45 -> NE, 405 -> NE, -45 -> NW, and 348.75,
    the boundary below north, wraps to N.  On every
    quarter degree from -720 to 720 the label is that of the nearest sector
    centre computed in exact arithmetic, ties going clockwise. *)
Theorem BearingToDirection_spec_values :
  geo.BearingToDirection 0%float = Some "N" /\
  geo.BearingToDirection 11.25%float = Some "NNE" /\
  geo.BearingToDirection 0x1.67e6666666666p+8%float = Some "N" /\
  geo.BearingToDirection 45%float = Some "NE" /\
  geo.BearingToDirection 405%float = Some "NE" /\
  geo.BearingToDirection (-45)%float = Some "NW" /\
  geo.BearingToDirection 348.75%float = Some "N" /\
  forallb (fun i => geo.agrees_on_quarter_degrees (Z.of_nat i - 2880))
          (seq 0 (Z.to_nat 5761)) = true.
Proof. vm_compute. repeat split. Qed.

Section HaversineReals.
Local Open Scope R_scope.






End HaversineReals.

(** ** Package [aircraft] *)

Lemma SqkValue_string (s : string) :
  aircraft.SqkValue_UnmarshalJSON (aircraft.JString s)
  = if String.eqb s "" then inr 0
    else match strconv.Atoi s with
         | Some n => inr n
         | None => inl (aircraft.NumError s)
         end.
Proof. reflexivity. Qed.

Lemma SqkValue_number (literal : string) :
  aircraft.SqkValue_UnmarshalJSON (aircraft.JNumber literal)
  = match strconv.Atoi literal with
    | Some n => inr n
    | None => inl (aircraft.UnmarshalTypeError (aircraft.JNumber literal))
    end.
Proof.
  unfold aircraft.SqkValue_UnmarshalJSON. simpl.
  destruct (strconv.Atoi literal); reflexivity.
Qed.

(** ** Package [monitor]: the tracker policy *)

Section TrackerPolicy.
Import monitor.

Lemma Time_Sub_exact (t u : Z) :
  minDuration <= t - u <= maxDuration -> Time_Sub t u = t - u.
Proof. unfold Time_Sub. lia. Qed.

(** Against a re-notify interval below the largest [Duration], comparing
    with [now.Sub(lastSeen)] is comparing with the exact difference. *)
Lemma renotify_due_exact (reNotifyAfter now lastSeen : Z) :
  minDuration <= reNotifyAfter < maxDuration ->
  (reNotifyAfter <? Time_Sub now lastSeen) = (reNotifyAfter <? now - lastSeen).
Proof.
  unfold Time_Sub. intros H.
  destruct (Z.ltb_spec reNotifyAfter (now - lastSeen));
    destruct (Z.ltb_spec reNotifyAfter
                (Z.max minDuration (Z.min maxDuration (now - lastSeen))));
    try reflexivity; lia.
Qed.

Lemma shouldNotify_first_sighting cfg now id d (h : gmap string AircraftTracker) :
  h !! id = None ->
  notify_decision cfg now id d h
  = (true, <[id := {| LastDistance := d; LastSeen := now; Notified := true |}]> h).
Proof. intros H. unfold notify_decision. rewrite H. reflexivity. Qed.

(** The map after [notify_decision] differs from the map before at the
    identifier only, where it holds the current distance and time. *)
Lemma shouldNotify_history cfg now id d (h : gmap string AircraftTracker) :
  exists notified,
    (notify_decision cfg now id d h).2
    = <[id := {| LastDistance := d; LastSeen := now; Notified := notified |}]> h.
Proof.
  unfold notify_decision.
  destruct (h !! id) as [t|]; [|eexists; reflexivity].
  cbv zeta.
  destruct (NotifyOnCloserOnly cfg); [|eexists; reflexivity].
  destruct (_ || _); eexists; reflexivity.
Qed.

(** The decision and the stored tracker for a known identifier. *)
Lemma shouldNotify_known cfg now id d (h : gmap string AircraftTracker) tracker :
  h !! id = Some tracker ->
  let decision :=
    if NotifyOnCloserOnly cfg
    then (d <? LastDistance tracker)%float
         || ((0 <? ReNotifyAfter cfg)
             && (ReNotifyAfter cfg <? Time_Sub now (LastSeen tracker)))
    else true in
  notify_decision cfg now id d h
  = (decision,
     <[id := {| LastDistance := d; LastSeen := now;
                Notified := decision || Notified tracker |}]> h).
Proof.
  intros Hid. unfold notify_decision. rewrite Hid. cbv zeta.
  destruct (NotifyOnCloserOnly cfg); [|reflexivity].
  destruct (0 <? ReNotifyAfter cfg); cbn [andb].
  - destruct (_ || _); reflexivity.
  - rewrite orb_false_r. destruct (_ <? _)%float; reflexivity.
Qed.

(** The method itself reads the clock once and decides as [notify_decision]. *)
Lemma shouldNotifyAircraft_unfold deps cfg id d m :
  shouldNotifyAircraft deps cfg id d m
  = ((notify_decision cfg (time_Now deps (clock m)) id d (aircraftHistory m)).1,
     set_history
       (notify_decision cfg (time_Now deps (clock m)) id d (aircraftHistory m)).2
       (tick_clock m)).
Proof.
  unfold shouldNotifyAircraft.
  destruct (notify_decision _ _ _ _ _); reflexivity.
Qed.

(** C2: [shouldNotifyAircraft] on a first sighting creates the tracker
    (current distance, current time, notified) and decides to notify,
    whatever the mode; for a known identifier it stores the current distance
    and time in every case, and decides, in closer-only mode,
    [current < previous distance || (reNotifyAfter > 0 && now - previous
    LastSeen > reNotifyAfter)], and to notify otherwise. *)
Theorem shouldNotifyAircraft_decision deps cfg id d m :
  let now := time_Now deps (clock m) in
  let res := shouldNotifyAircraft deps cfg id d m in
  match aircraftHistory m !! id with
  | None =>
      res.1 = true
      /\ aircraftHistory res.2
         = <[id := {| LastDistance := d; LastSeen := now; Notified := true |}]>
             (aircraftHistory m)
  | Some tracker =>
      res.1 = (if NotifyOnCloserOnly cfg
               then (d <? LastDistance tracker)%float
                    || ((0 <? ReNotifyAfter cfg)
                        && (ReNotifyAfter cfg <? Time_Sub now (LastSeen tracker)))
               else true)
      /\ aircraftHistory res.2
         = <[id := {| LastDistance := d; LastSeen := now;
                      Notified := res.1 || Notified tracker |}]>
             (aircraftHistory m)
  end.
Proof.
  cbv zeta. rewrite shouldNotifyAircraft_unfold. cbn [fst snd aircraftHistory set_history].
  destruct (aircraftHistory m !! id) as [tracker|] eqn:Hid.
  - rewrite (shouldNotify_known cfg _ id d _ tracker Hid). cbn [fst snd].
    split; reflexivity.
  - rewrite (shouldNotify_first_sighting cfg _ id d _ Hid). cbn [fst snd].
    split; reflexivity.
Qed.

Lemma shouldNotify_lookup_same cfg now id d (h : gmap string AircraftTracker) :
  exists notified,
    (notify_decision cfg now id d h).2 !! id
    = Some {| LastDistance := d; LastSeen := now; Notified := notified |}.
Proof.
  destruct (shouldNotify_history cfg now id d h) as [n ->].
  exists n. apply lookup_insert_eq.
Qed.

Lemma shouldNotify_lookup_other cfg now id d (h : gmap string AircraftTracker) j :
  j <> id -> (notify_decision cfg now id d h).2 !! j = h !! j.
Proof.
  intros Hne. destruct (shouldNotify_history cfg now id d h) as [n ->].
  apply lookup_insert_ne. congruence.
Qed.

End TrackerPolicy.

(** ** Package [monitor]: the cleanup sweep *)

Section Cleanup.
Import monitor.

(** Folding the deletions over entries of the map: an entry is gone when it
    is stale and was visited, and is left as it was otherwise. *)
Lemma sweep_fold_lookup cutoff (h : gmap string AircraftTracker)
    (l : list (string * AircraftTracker)) :
  (forall k t, (k, t) ∈ l -> h !! k = Some t) ->
  forall id,
    foldr (sweep_step cutoff) h l !! id
    = match h !! id with
      | Some t =>
          if Time_Before (LastSeen t) cutoff
          then (if decide (id ∈ l.*1) then None else Some t)
          else Some t
      | None => None
      end.
Proof.
  induction l as [|[k t] l IH]; intros Hl id.
  - cbn [foldr]. destruct (h !! id) as [t|]; [|reflexivity].
    destruct (Time_Before _ _); [|reflexivity].
    destruct (decide (id ∈ ([] : list (string * AircraftTracker)).*1))
      as [Hin|_]; [|reflexivity].
    apply elem_of_nil in Hin. contradiction.
  - assert (Hk : h !! k = Some t) by (apply Hl; left).
    assert (Hl' : forall k' t', (k', t') ∈ l -> h !! k' = Some t')
      by (intros; apply Hl; right; assumption).
    specialize (IH Hl' id).
    cbn [foldr]. unfold sweep_step at 1.
    change (((k, t) :: l).*1) with (k :: l.*1).
    destruct (decide (id = k)) as [->|Hne].
    + rewrite Hk.
      destruct (Time_Before (LastSeen t) cutoff) eqn:Hstale.
      * rewrite lookup_delete_eq.
        destruct (decide (k ∈ k :: l.*1)) as [_|Hin]; [reflexivity|].
        exfalso. apply Hin. left.
      * rewrite IH, Hk, Hstale. reflexivity.
    + assert (Hsame :
        (if Time_Before (LastSeen t) cutoff
         then delete k (foldr (sweep_step cutoff) h l)
         else foldr (sweep_step cutoff) h l) !! id
        = foldr (sweep_step cutoff) h l !! id).
      { destruct (Time_Before (LastSeen t) cutoff); [|reflexivity].
        apply lookup_delete_ne. congruence. }
      rewrite Hsame, IH.
      destruct (h !! id) as [t'|]; [|reflexivity].
      destruct (Time_Before (LastSeen t') cutoff); [|reflexivity].
      destruct (decide (id ∈ k :: l.*1)) as [Hin|Hin];
        destruct (decide (id ∈ l.*1)) as [Hin'|Hin']; try reflexivity.
      * apply elem_of_cons in Hin.
        destruct Hin as [->|Hin]; [congruence|contradiction].
      * exfalso. apply Hin. right. assumption.
Qed.

Lemma sweep_lookup cutoff (h : gmap string AircraftTracker) id :
  sweep cutoff h !! id
  = match h !! id with
    | Some t => if Time_Before (LastSeen t) cutoff then None else Some t
    | None => None
    end.
Proof.
  unfold sweep.
  rewrite sweep_fold_lookup
    by (intros k t Hin; apply elem_of_map_to_list in Hin; exact Hin).
  destruct (h !! id) as [t|] eqn:Hid; [|reflexivity].
  destruct (Time_Before _ _); [|reflexivity].
  case_decide as Hin; [reflexivity|].
  exfalso. apply Hin. apply list_elem_of_fmap.
  exists (id, t). split; [reflexivity|]. apply elem_of_map_to_list. exact Hid.
Qed.

End Cleanup.

(** ** Package [monitor]: one poll *)

Section Poll.
Import monitor.
Variables (deps : Deps) (cfg : Config).

(** What [processAircraft] does to the tracking state is what
    [notify_decision] does to the map, with one reading of the clock. *)
Lemma processAircraft_tracking ac m :
  tracking (processAircraft deps cfg ac m).2
  = ((notify_decision cfg (time_Now deps (clock m)) (getAircraftIdentifier ac)
        (calculateDistance deps cfg (aircraft.Lat ac) (aircraft.Long ac))
        (aircraftHistory m)).2,
     S (clock m), fetches m).
Proof.
  unfold processAircraft. rewrite shouldNotifyAircraft_unfold.
  cbv zeta. cbn [fst snd].
  destruct (Enabled cfg && _); [destruct (notifier_Send _ _ _)|]; reflexivity.
Qed.

Lemma process_one_tracking m ac :
  tracking (process_one deps cfg m ac) = tracking (processAircraft deps cfg ac m).2.
Proof.
  unfold process_one.
  destruct (processAircraft deps cfg ac m) as [[err|] m']; reflexivity.
Qed.

Lemma process_one_detected m ac :
  detected (process_one deps cfg m ac) = S (detected m).
Proof.
  unfold process_one, processAircraft. rewrite shouldNotifyAircraft_unfold.
  cbv zeta. cbn [fst snd].
  destruct (Enabled cfg && _); [destruct (notifier_Send _ _ _)|]; reflexivity.
Qed.

Lemma process_one_clock m ac : clock (process_one deps cfg m ac) = S (clock m).
Proof.
  pose proof (process_one_tracking m ac) as H.
  rewrite processAircraft_tracking in H. unfold tracking in H.
  congruence.
Qed.

Lemma process_one_history m ac :
  aircraftHistory (process_one deps cfg m ac)
  = (notify_decision cfg (time_Now deps (clock m)) (getAircraftIdentifier ac)
       (calculateDistance deps cfg (aircraft.Lat ac) (aircraft.Long ac))
       (aircraftHistory m)).2.
Proof.
  pose proof (process_one_tracking m ac) as H.
  rewrite processAircraft_tracking in H. unfold tracking in H.
  congruence.
Qed.

Lemma process_one_tracks m ac :
  is_Some (aircraftHistory (process_one deps cfg m ac) !! getAircraftIdentifier ac).
Proof.
  rewrite process_one_history.
  destruct (shouldNotify_lookup_same cfg (time_Now deps (clock m))
              (getAircraftIdentifier ac)
              (calculateDistance deps cfg (aircraft.Lat ac) (aircraft.Long ac))
              (aircraftHistory m)) as [n ->].
  eexists; reflexivity.
Qed.

Lemma process_one_keeps m ac id :
  is_Some (aircraftHistory m !! id) ->
  is_Some (aircraftHistory (process_one deps cfg m ac) !! id).
Proof.
  intros Hid. destruct (decide (id = getAircraftIdentifier ac)) as [->|Hne].
  - apply process_one_tracks.
  - rewrite process_one_history, shouldNotify_lookup_other by exact Hne.
    exact Hid.
Qed.

Lemma batch_keeps l : forall m id,
  is_Some (aircraftHistory m !! id) ->
  is_Some (aircraftHistory (fold_left (process_one deps cfg) l m) !! id).
Proof.
  induction l as [|ac l IH]; intros m id Hid; [exact Hid|].
  apply IH, process_one_keeps, Hid.
Qed.

Lemma batch_tracks l : forall m,
  Forall (fun ac =>
            is_Some (aircraftHistory (fold_left (process_one deps cfg) l m)
                     !! getAircraftIdentifier ac)) l.
Proof.
  induction l as [|ac l IH]; intros m; constructor.
  - cbn [fold_left]. apply batch_keeps, process_one_tracks.
  - cbn [fold_left]. apply IH.
Qed.

Lemma batch_clock l : forall m,
  clock (fold_left (process_one deps cfg) l m) = (clock m + length l)%nat.
Proof.
  induction l as [|ac l IH]; intros m; simpl; [lia|].
  rewrite IH, process_one_clock. lia.
Qed.

Lemma batch_detected l : forall m,
  detected (fold_left (process_one deps cfg) l m) = (detected m + length l)%nat.
Proof.
  induction l as [|ac l IH]; intros m; simpl; [lia|].
  rewrite IH, process_one_detected. lia.
Qed.


(** C7: when the fetch fails the poll ends with that error before any
    aircraft is looked at, and the tracker map (with the clock, the
    notifier and the log) is as it was; when the fetch succeeds the poll
    returns no error and every aircraft of the batch has been through the
    decision and has its tracker, whatever [processAircraft] returned for
    the others. *)
Theorem fetchAndProcess_failure_semantics (m : Monitor) :
  match fetcher_Fetch deps (fetches m) with
  | inl cause =>
      fetchAndProcess deps cfg m = (Some (ErrFetch cause), count_fetch m)
      /\ aircraftHistory (fetchAndProcess deps cfg m).2 = aircraftHistory m
      /\ clock (fetchAndProcess deps cfg m).2 = clock m
      /\ sends (fetchAndProcess deps cfg m).2 = sends m
      /\ log (fetchAndProcess deps cfg m).2 = log m
  | inr acList =>
      (fetchAndProcess deps cfg m).1 = None
      /\ (fetchAndProcess deps cfg m).2
         = fold_left (process_one deps cfg) (aircraft.Aircraft_ acList)
             (count_fetch m)
      /\ clock (fetchAndProcess deps cfg m).2
         = (clock m + length (aircraft.Aircraft_ acList))%nat
      /\ detected (fetchAndProcess deps cfg m).2
         = (detected m + length (aircraft.Aircraft_ acList))%nat
      /\ Forall (fun ac =>
                   is_Some (aircraftHistory (fetchAndProcess deps cfg m).2
                            !! getAircraftIdentifier ac))
           (aircraft.Aircraft_ acList)
  end.
Proof.
  unfold fetchAndProcess.
  destruct (fetcher_Fetch deps (fetches m)) as [cause|acList]; cbn [fst snd].
  - repeat split.
  - split; [reflexivity|]. split; [reflexivity|].
    split; [rewrite batch_clock; reflexivity|].
    split; [rewrite batch_detected; reflexivity|].
    apply batch_tracks.
Qed.

(** An aircraft whose notification fails is reported and the loop moves on
    to the next one from the state that aircraft left behind. *)
Lemma batch_continues_after_error l1 ac l2 m err m_ac :
  processAircraft deps cfg ac (fold_left (process_one deps cfg) l1 m)
  = (Some err, m_ac) ->
  fold_left (process_one deps cfg) (l1 ++ ac :: l2) m
  = fold_left (process_one deps cfg) l2
      (add_log (LogProcessFailed (aircraft.Call ac) err) m_ac).
Proof.
  intros H. rewrite fold_left_app. cbn [fold_left].
  unfold process_one at 2. rewrite H. reflexivity.
Qed.



End Poll.

(** ** Package [monitor]: the claims about the loop *)

Section Loop.
Import monitor.

(** C6: a sweep keeps a tracker exactly when it was not last seen before
    [now - 15 min]; it sends nothing and logs no detection; nothing older
    than the cutoff is left; of two trackers last seen 20 minutes and one
    minute ago, the first goes and the second stays. *)
Theorem cleanupAircraftHistory_removes_exactly_stale :
  (forall deps m id,
     aircraftHistory (cleanupAircraftHistory deps m) !! id
     = match aircraftHistory m !! id with
       | Some t =>
           if LastSeen t <? time_Now deps (clock m) - 15 * Minute
           then None else Some t
       | None => None
       end)
  /\ (forall deps m,
        sends (cleanupAircraftHistory deps m) = sends m
        /\ log (cleanupAircraftHistory deps m) = log m)
  /\ (forall deps m id,
        match aircraftHistory (cleanupAircraftHistory deps m) !! id with
        | Some t => (LastSeen t <? time_Now deps (clock m) - 15 * Minute) = false
        | None => True
        end)
  /\ (let m := set_history scenarios.old_and_recent NewMonitorWithDeps in
      let m' := cleanupAircraftHistory scenarios.failing_deps m in
      aircraftHistory m' !! "old" = None
      /\ aircraftHistory m' !! "recent" = scenarios.old_and_recent !! "recent"
      /\ is_Some (aircraftHistory m' !! "recent")).
Proof.
  assert (Hlookup : forall deps m id,
     aircraftHistory (cleanupAircraftHistory deps m) !! id
     = match aircraftHistory m !! id with
       | Some t =>
           if LastSeen t <? time_Now deps (clock m) - 15 * Minute
           then None else Some t
       | None => None
       end).
  { intros deps m id. unfold cleanupAircraftHistory. cbn [aircraftHistory set_history].
    rewrite sweep_lookup. unfold Time_Before, Time_Add.
    replace (time_Now deps (clock m) + -15 * Minute)
      with (time_Now deps (clock m) - 15 * Minute) by lia.
    reflexivity. }
  split; [exact Hlookup|]. split; [intros; split; reflexivity|]. split.
  - intros deps m id. rewrite Hlookup.
    destruct (aircraftHistory m !! id) as [t|]; [|exact I].
    destruct (LastSeen t <? _) eqn:E; [exact I|exact E].
  - cbv zeta. rewrite !Hlookup. cbn [aircraftHistory set_history clock NewMonitorWithDeps].
    unfold scenarios.old_and_recent.
    rewrite lookup_insert_eq.
    rewrite lookup_insert_ne by discriminate.
    rewrite lookup_insert_eq.
    cbn [LastSeen]. split; [|split]; [reflexivity..|eexists; reflexivity].
Qed.







End Loop.

(** ** Package [fetch]: authentication *)

Section Authentication.
Import fetch.

Lemma login_requires_both env st :
  Username (fetcher st) = "" \/ Password (fetcher st) = "" ->
  login env st = (inl ErrCredentialsRequired, st).
Proof.
  intros H. unfold login, bind, get_fetcher.
  destruct H as [-> | ->]; cbn [String.eqb orb]; [reflexivity|].
  rewrite orb_true_r. reflexivity.
Qed.

Lemma String_eqb_neq (s t : string) : s <> t -> String.eqb s t = false.
Proof. intros H. apply String.eqb_neq. exact H. Qed.

(** [Fetch] goes through [login] first exactly when a credential is set
    and no method is established. *)
Lemma authenticate_guard env st :
  authenticate env st
  = if (negb (String.eqb (Username (fetcher st)) "")
        || negb (String.eqb (Password (fetcher st)) ""))
       && String.eqb (authMethod (fetcher st)) ""
    then match login env st with
         | (inl err, st') => (inl (ErrAuthenticationFailed err), st')
         | (inr tt, st') => (inr tt, st')
         end
    else (inr tt, st).
Proof.
  unfold authenticate, bind, get_fetcher, ret.
  destruct (_ && _); reflexivity.
Qed.

(** C10: with no method established and exactly one of user name and
    password set, [Fetch] enters [login], [login] fails at once, and the
    call returns the authentication error with nothing sent and the
    fetcher as it was; so does every later call. *)
Theorem Fetch_with_one_credential env fuel st
    (Hmethod : authMethod (fetcher st) = "")
    (Hone : (Username (fetcher st) = "" /\ Password (fetcher st) <> "")
            \/ (Username (fetcher st) <> "" /\ Password (fetcher st) = "")) :
  authenticate env st
  = match login env st with
    | (inl err, st') => (inl (ErrAuthenticationFailed err), st')
    | (inr tt, st') => (inr tt, st')
    end
  /\ login env st = (inl ErrCredentialsRequired, st)
  /\ Fetch env (S fuel) st
     = (Some (inl (ErrAuthenticationFailed ErrCredentialsRequired)), st).
Proof.
  assert (Hlogin : login env st = (inl ErrCredentialsRequired, st))
    by (apply login_requires_both; tauto).
  assert (Hauth : authenticate env st
                  = (inl (ErrAuthenticationFailed ErrCredentialsRequired), st)).
  { rewrite authenticate_guard, Hmethod, Hlogin.
    destruct Hone as [[Hu Hp] | [Hu Hp]].
    - rewrite Hu, (String_eqb_neq _ _ Hp). reflexivity.
    - rewrite Hp, (String_eqb_neq _ _ Hu). reflexivity. }
  split; [|split; [exact Hlogin|]].
  - rewrite Hauth, Hlogin. reflexivity.
  - cbn [Fetch]. unfold send_poll, bind. rewrite Hauth. reflexivity.
Qed.

Lemma Fetch_with_one_credential_witness :
  Fetch (scenarios.expiring_env None) 1 (scenarios.start scenarios.user_only)
  = (Some (inl (ErrAuthenticationFailed ErrCredentialsRequired)),
     scenarios.start scenarios.user_only).
Proof.
  refine (proj2 (proj2 (Fetch_with_one_credential
            (scenarios.expiring_env None) 0
            (scenarios.start scenarios.user_only) eq_refl _))).
  right. split; [discriminate|reflexivity].
Defined.
End Authentication.

(** ** Package [fetch]: the query of a poll *)

Section Query.
Import fetch.
Local Abbreviation Values := (gmap string (list string)).

(** One conditional [q.Set], looked up at a key. *)
Lemma lookup_cond_Set (c : bool) (key value : string) (q : Values) (k : string) :
  (if c then Values_Set key value q else q) !! k
  = if decide (key = k) then (if c then Some [value] else q !! k) else q !! k.
Proof.
  unfold Values_Set. destruct c; case_decide; subst;
    rewrite ?lookup_insert_eq, ?lookup_insert_ne by assumption; reflexivity.
Qed.

Lemma apply_filters_lookup env f (q : Values) (k : string) :
  apply_filters env f q !! k
  = if decide (k = "fDstU") then
      (if location_sent f && (0 <? MaxDistance f)%float
       then Some [strconv_FormatFloat env (MaxDistance f)] else q !! k)
    else if decide (k = "lng") then
      (if location_sent f
       then Some [strconv_FormatFloat env (UserLong f)] else q !! k)
    else if decide (k = "lat") then
      (if location_sent f
       then Some [strconv_FormatFloat env (UserLat f)] else q !! k)
    else if decide (k = "fCallQ") then
      (if negb (String.eqb (FlightNumber f) "")
       then Some [FlightNumber f] else q !! k)
    else if decide (k = "fOpQ") then
      (if negb (String.eqb (Operator f) "") then Some [Operator f] else q !! k)
    else if decide (k = "fMilQ") then
      (if Military f then Some ["1"] else q !! k)
    else if decide (k = "fAltU") then
      (if 0 <? MaxAltitude f
       then Some [strconv.Itoa (MaxAltitude f)] else q !! k)
    else if decide (k = "fAltL") then
      (if 0 <? MinAltitude f
       then Some [strconv.Itoa (MinAltitude f)] else q !! k)
    else if decide (k = "fTypQ") then
      (if negb (String.eqb (AircraftType f) "")
       then Some [AircraftType f] else q !! k)
    else q !! k.
Proof.
  unfold apply_filters, location_sent. cbv zeta.
  set (loc := negb (UserLat f =? 0)%float && negb (UserLong f =? 0)%float).
  assert (Hloc :
    forall q0 : Values,
      (if loc
       then if (0 <? MaxDistance f)%float
            then Values_Set "fDstU" (strconv_FormatFloat env (MaxDistance f))
                   (Values_Set "lng" (strconv_FormatFloat env (UserLong f))
                      (Values_Set "lat" (strconv_FormatFloat env (UserLat f)) q0))
            else Values_Set "lng" (strconv_FormatFloat env (UserLong f))
                   (Values_Set "lat" (strconv_FormatFloat env (UserLat f)) q0)
       else q0)
      = (if loc && (0 <? MaxDistance f)%float
         then Values_Set "fDstU" (strconv_FormatFloat env (MaxDistance f))
         else fun x => x)
          ((if loc then Values_Set "lng" (strconv_FormatFloat env (UserLong f))
            else fun x => x)
             ((if loc then Values_Set "lat" (strconv_FormatFloat env (UserLat f))
               else fun x => x) q0)))
    by (intros q0; destruct loc, (0 <? MaxDistance f)%float; reflexivity).
  rewrite Hloc. clear Hloc.
  assert (Hfun : forall (c : bool) key value (q0 : Values),
             (if c then Values_Set key value else fun x => x) q0
             = (if c then Values_Set key value q0 else q0))
    by (intros [] ? ? ?; reflexivity).
  rewrite !Hfun, !lookup_cond_Set. fold loc.
  repeat
    (let H := fresh "Hk" in
     destruct (decide (k = _)) as [->|H];
     [ repeat (rewrite decide_True by reflexivity
               || rewrite decide_False by discriminate);
       try destruct loc; reflexivity
     | match type of H with
       | _ <> ?key => rewrite (decide_False (P := key = k)) by congruence
       end ]).
  reflexivity.
Qed.
End Query.

(** C4 fails on the code for an observer on the Greenwich meridian (or on
    the equator): the location is not the zero location, the monitor computes
    distances from it, and yet [Fetch] leaves the query of the base URL
    untouched: no [lat], no [lng], no [fDstU]. *)
Theorem Fetch_omits_location_on_meridian :
  monitor.no_location scenarios.test_cfg = false
  /\ fetch.UserLat scenarios.on_meridian = monitor.Latitude scenarios.test_cfg
  /\ fetch.UserLong scenarios.on_meridian = monitor.Longitude scenarios.test_cfg
  /\ (0 <? fetch.MaxDistance scenarios.on_meridian)%float = true
  /\ fetch.location_sent scenarios.on_meridian = false
  /\ (forall env q, fetch.apply_filters env scenarios.on_meridian q = q)
  /\ (forall env u,
        fetch.Query (fetch.Target (fetch.poll_request env scenarios.on_meridian u))
        = fetch.Query u).
Proof.
  repeat split.
Qed.

(** Off the two axes the location block does what C4 says. *)
Lemma apply_filters_location env f (q : gmap string (list string)) :
  (fetch.UserLat f =? 0)%float = false ->
  (fetch.UserLong f =? 0)%float = false ->
  fetch.apply_filters env f q !! "lat"
  = Some [fetch.strconv_FormatFloat env (fetch.UserLat f)]
  /\ fetch.apply_filters env f q !! "lng"
     = Some [fetch.strconv_FormatFloat env (fetch.UserLong f)]
  /\ fetch.apply_filters env f q !! "fDstU"
     = if (0 <? fetch.MaxDistance f)%float
       then Some [fetch.strconv_FormatFloat env (fetch.MaxDistance f)]
       else q !! "fDstU".
Proof.
  intros Hlat Hlng. rewrite !apply_filters_lookup.
  unfold fetch.location_sent. rewrite Hlat, Hlng. repeat split.
Qed.

(** ** Package [fetch]: session expiry *)

Section SessionExpiry.
Import fetch.

Lemma Fetch_unfold env fuel st :
  Fetch env (S fuel) st
  = match send_poll env st with
    | (inl err, st1) => (Some (inl err), st1)
    | (inr resp, st1) =>
        if is_login_redirect resp then
          match login env (clear_session st1) with
          | (inl err, st2) => (Some (inl (ErrReauthenticationFailed err)), st2)
          | (inr tt, st2) => Fetch env fuel st2
          end
        else (Some (read_response env resp), st1)
    end.
Proof. reflexivity. Qed.

(** What [Fetch] does with a redirect to the login page, for any server. *)
Lemma Fetch_login_redirect env fuel st resp st1 :
  send_poll env st = (inr resp, st1) ->
  is_login_redirect resp = true ->
  sessionCookie (fetcher (clear_session st1)) = ""
  /\ authMethod (fetcher (clear_session st1)) = ""
  /\ Fetch env (S fuel) st
     = match login env (clear_session st1) with
       | (inl err, st2) => (Some (inl (ErrReauthenticationFailed err)), st2)
       | (inr tt, st2) => Fetch env fuel st2
       end.
Proof.
  intros Hsend Hredirect. split; [reflexivity|]. split; [reflexivity|].
  rewrite Fetch_unfold, Hsend, Hredirect. reflexivity.
Qed.

Lemma send_poll_logged_in limit tr :
  send_poll (scenarios.expiring_env limit)
    {| fetcher := scenarios.logged_in; sent := tr |}
  = (inr (if scenarios.expired limit (scenarios.count_GET (map request tr))
          then scenarios.to_login else scenarios.feed),
     {| fetcher := scenarios.logged_in;
        sent := {| origin := ByFetch; request := scenarios.poll_request limit |}
                :: tr |}).
Proof.
  unfold send_poll, bind, authenticate, get_fetcher, Parse, Do, ret.
  cbn. destruct (scenarios.expired limit _); reflexivity.
Qed.

Lemma login_again limit tr :
  login (scenarios.expiring_env limit)
    (clear_session {| fetcher := scenarios.logged_in; sent := tr |})
  = (inr tt,
     {| fetcher := scenarios.logged_in;
        sent := {| origin := ByFormLogin; request := scenarios.login_request |}
                :: tr |}).
Proof. reflexivity. Qed.

Lemma count_GET_after_round limit tr :
  scenarios.count_GET
    (map request ({| origin := ByFormLogin; request := scenarios.login_request |}
                  :: {| origin := ByFetch; request := scenarios.poll_request limit |}
                  :: tr))
  = S (scenarios.count_GET (map request tr)).
Proof. reflexivity. Qed.

(** A session that expires [r] more times costs [r] logins and [r + 1]
    polls, and the call succeeds. *)
Lemma Fetch_expiring_session r : forall j tr,
  scenarios.count_GET (map request tr) = j ->
  let st := {| fetcher := scenarios.logged_in; sent := tr |} in
  let res := Fetch (scenarios.expiring_env (Some (j + r)%nat)) (S r) st in
  res.1 = Some (inr scenarios.empty_list)
  /\ count_sent ByFetch res.2 = (count_sent ByFetch st + S r)%nat
  /\ count_sent ByFormLogin res.2 = (count_sent ByFormLogin st + r)%nat.
Proof.
  induction r as [|r IH]; intros j tr Hj; cbv zeta.
  - rewrite Fetch_unfold, send_poll_logged_in, Hj.
    cbn [scenarios.expired]. replace (j <? j + 0)%nat with false
      by (symmetry; apply Nat.ltb_ge; lia).
    cbn. repeat split; lia.
  - rewrite Fetch_unfold, send_poll_logged_in, Hj.
    cbn [scenarios.expired]. replace (j <? j + S r)%nat with true
      by (symmetry; apply Nat.ltb_lt; lia).
    change (is_login_redirect scenarios.to_login) with true. cbv iota.
    rewrite login_again.
    replace (j + S r)%nat with (S j + r)%nat by lia.
    specialize (IH (S j) _
                  (eq_trans (count_GET_after_round (Some (S j + r)%nat) tr)
                            (f_equal S Hj))).
    cbv zeta in IH. destruct IH as (Hres & Hpolls & Hlogins).
    split; [exact Hres|]. rewrite Hpolls, Hlogins.
    unfold count_sent. cbn. split; lia.
Qed.

(** A session that is always expired keeps the call going for as long as it
    is allowed to run. *)
Lemma Fetch_always_expired n : forall tr,
  let st := {| fetcher := scenarios.logged_in; sent := tr |} in
  let res := Fetch (scenarios.expiring_env None) n st in
  res.1 = None
  /\ count_sent ByFetch res.2 = (count_sent ByFetch st + n)%nat
  /\ count_sent ByFormLogin res.2 = (count_sent ByFormLogin st + n)%nat.
Proof.
  induction n as [|n IH]; intros tr; cbv zeta.
  - cbn. repeat split; lia.
  - rewrite Fetch_unfold, send_poll_logged_in.
    cbn [scenarios.expired].
    change (is_login_redirect scenarios.to_login) with true. cbv iota.
    rewrite login_again.
    specialize (IH ({| origin := ByFormLogin; request := scenarios.login_request |}
                    :: {| origin := ByFetch; request := scenarios.poll_request None |}
                    :: tr)).
    cbv zeta in IH. destruct IH as (Hres & Hpolls & Hlogins).
    split; [exact Hres|]. rewrite Hpolls, Hlogins.
    unfold count_sent. cbn. split; lia.
Qed.
End SessionExpiry.

(** C1, as stated, fails: with a session that is found expired twice,
    [Fetch] polls, logs in, polls, logs in and polls a third time, and
    returns the list; the second redirect to the login page did not end the
    call with an error. *)
Lemma Fetch_second_login_redirect_is_retried :
  let env := scenarios.expiring_env (Some 2%nat) in
  let poll := scenarios.poll_request (Some 2%nat) in
  let res := fetch.Fetch env 3 (scenarios.start scenarios.logged_in) in
  fetch.client_Do env [] poll = Some scenarios.to_login
  /\ fetch.client_Do env [scenarios.login_request; poll] poll
     = Some scenarios.to_login
  /\ fetch.is_login_redirect scenarios.to_login = true
  /\ res.1 = Some (inr scenarios.empty_list)
  /\ map fetch.origin (rev (fetch.sent res.2))
     = [fetch.ByFetch; fetch.ByFormLogin; fetch.ByFetch; fetch.ByFormLogin;
        fetch.ByFetch].
Proof. vm_compute. repeat split. Qed.

(** C1 (amended): on a redirect (301 or 302) whose Location contains
    [login.php], [Fetch] clears the session cookie and the auth method and
    runs [login] again; when that fails the call ends with the
    re-authentication error, and when it succeeds [Fetch] calls itself.
    Nothing counts these rounds: a session found expired [k] times in a row
    is answered with [k] logins and [k + 1] polls before the list is returned,
    for every [k], and against a server that always redirects the call is
    still running after any number of rounds. *)
Theorem Fetch_relogin_on_every_login_redirect :
  (forall env fuel st resp st1,
     fetch.send_poll env st = (inr resp, st1) ->
     fetch.is_login_redirect resp = true ->
     fetch.sessionCookie (fetch.fetcher (fetch.clear_session st1)) = ""
     /\ fetch.authMethod (fetch.fetcher (fetch.clear_session st1)) = ""
     /\ fetch.Fetch env (S fuel) st
        = match fetch.login env (fetch.clear_session st1) with
          | (inl err, st2) =>
              (Some (inl (fetch.ErrReauthenticationFailed err)), st2)
          | (inr tt, st2) => fetch.Fetch env fuel st2
          end)
  /\ (forall k,
        let res := fetch.Fetch (scenarios.expiring_env (Some k)) (S k)
                     (scenarios.start scenarios.logged_in) in
        res.1 = Some (inr scenarios.empty_list)
        /\ fetch.count_sent fetch.ByFetch res.2 = S k
        /\ fetch.count_sent fetch.ByFormLogin res.2 = k)
  /\ (forall n,
        let res := fetch.Fetch (scenarios.expiring_env None) n
                     (scenarios.start scenarios.logged_in) in
        res.1 = None
        /\ fetch.count_sent fetch.ByFetch res.2 = n
        /\ fetch.count_sent fetch.ByFormLogin res.2 = n).
Proof.
  split; [|split].
  - intros env fuel st resp st1. apply Fetch_login_redirect.
  - intros k. exact (Fetch_expiring_session k 0%nat [] eq_refl).
  - intros n. exact (Fetch_always_expired n []).
Qed.

(** The first part of the theorem at the first poll of a session that
    expires once. *)
Lemma Fetch_relogin_on_every_login_redirect_witness :
  let env := scenarios.expiring_env (Some 1%nat) in
  let st := scenarios.start scenarios.logged_in in
  let st1 := (fetch.send_poll env st).2 in
  fetch.send_poll env st = (inr scenarios.to_login, st1)
  /\ fetch.is_login_redirect scenarios.to_login = true
  /\ fetch.Fetch env 2 st
     = match fetch.login env (fetch.clear_session st1) with
       | (inl err, st2) =>
           (Some (inl (fetch.ErrReauthenticationFailed err)), st2)
       | (inr tt, st2) => fetch.Fetch env 1 st2
       end.
Proof.
  cbv zeta.
  split; [reflexivity|]. split; [reflexivity|].
  exact (proj2 (proj2 (proj1 Fetch_relogin_on_every_login_redirect
           (scenarios.expiring_env (Some 1%nat)) 1%nat
           (scenarios.start scenarios.logged_in) scenarios.to_login
           (fetch.send_poll (scenarios.expiring_env (Some 1%nat))
              (scenarios.start scenarios.logged_in)).2
           eq_refl eq_refl))).
Defined.

(** ** Package [aircraft]: the squawk field *)

Section Squawk.
Import strconv.

Lemma parse_digits_string_of_uint d : forall acc,
  parse_digits (NilEmpty.string_of_uint d) acc = Some (uint_value d acc).
Proof.
  induction d; intros acc; cbn [NilEmpty.string_of_uint uint_value];
    [reflexivity | cbn [parse_digits]; apply IHd ..].
Qed.

Lemma of_uint_acc_value d : forall p,
  Z.pos (Pos.of_uint_acc d p) = uint_value d (Z.pos p).
Proof.
  induction d; intros p; cbn [Pos.of_uint_acc uint_value];
    [reflexivity | rewrite IHd; f_equal; lia ..].
Qed.

Lemma of_uint_value d : Z.of_uint d = uint_value d 0.
Proof.
  unfold Z.of_uint.
  induction d; cbn [Pos.of_uint uint_value];
    [reflexivity | exact IHd | cbn [Z.of_N]; apply of_uint_acc_value ..].
Qed.

Lemma string_of_uint_nonnil d :
  d <> Decimal.Nil ->
  NilZero.string_of_uint d = NilEmpty.string_of_uint d
  /\ exists c rest, NilEmpty.string_of_uint d = String c rest
       /\ c <> "+"%char /\ c <> "-"%char.
Proof.
  intros Hd. destruct d; [contradiction|..];
    (split; [reflexivity|]; cbn [NilEmpty.string_of_uint];
     eexists; eexists; split; [reflexivity|]; split; discriminate).
Qed.

Lemma Atoi_unsigned d :
  d <> Decimal.Nil ->
  in_int64 (Z.of_uint d) = true ->
  Atoi (NilZero.string_of_uint d) = Some (Z.of_uint d).
Proof.
  intros Hd Hrange.
  destruct (string_of_uint_nonnil d Hd) as (-> & c & rest & Hs & Hplus & Hminus).
  unfold Atoi.
  pose proof (parse_digits_string_of_uint d 0) as Hparse.
  rewrite Hs in *.
  assert (Hbody :
    match String c rest with
    | String "+"%char r => (false, r)
    | String "-"%char r => (true, r)
    | _ => (false, String c rest)
    end = (false, String c rest)).
  { destruct c as [[] [] [] [] [] [] [] []]; try reflexivity; congruence. }
  rewrite Hbody, Hparse, <- of_uint_value, Hrange. reflexivity.
Qed.

(** [Atoi] reads back what [Itoa] prints. *)
Lemma Atoi_Itoa (z : Z) :
  in_int64 z = true -> Atoi (Itoa z) = Some z.
Proof.
  intros Hrange. unfold Itoa.
  destruct z as [|p|p]; [reflexivity|..]; cbn [Z.to_int NilZero.string_of_int].
  - assert (Hv : Z.of_uint (Pos.to_uint p) = Z.pos p)
      by exact (DecimalZ.of_to (Z.pos p)).
    rewrite Atoi_unsigned; rewrite ?Hv; auto using Unsigned.to_uint_nonnil.
  - assert (Hv : Z.of_uint (Pos.to_uint p) = Z.pos p)
      by exact (DecimalZ.of_to (Z.pos p)).
    destruct (string_of_uint_nonnil (Pos.to_uint p) (Unsigned.to_uint_nonnil p))
      as (-> & c & rest & Hs & _ & _).
    unfold Atoi.
    pose proof (parse_digits_string_of_uint (Pos.to_uint p) 0) as Hparse.
    rewrite Hs in *. rewrite Hparse, <- of_uint_value, Hv.
    change (- Z.pos p) with (Z.neg p). rewrite Hrange. reflexivity.
Qed.

Lemma parse_digits_not_all_digits s : forall acc,
  all_digits s = false -> parse_digits s acc = None.
Proof.
  induction s as [|c s IH]; intros acc H; [discriminate|].
  cbn [all_digits parse_digits] in *.
  destruct (digit_of c); [apply IH, H | reflexivity].
Qed.

(** [Atoi] refuses whatever is not a decimal integer. *)
Lemma Atoi_not_decimal s : is_decimal_integer s = false -> Atoi s = None.
Proof.
  unfold is_decimal_integer, Atoi. intros H.
  set (body := match s with
               | String "+"%char rest => rest
               | String "-"%char rest => rest
               | _ => s
               end) in *.
  assert (Hpair : exists neg,
    match s with
    | String "+"%char rest => (false, rest)
    | String "-"%char rest => (true, rest)
    | _ => (false, s)
    end = (neg, body)).
  { subst body. destruct s as [|c s]; [eexists; reflexivity|].
    destruct c as [[] [] [] [] [] [] [] []]; eexists; reflexivity. }
  destruct Hpair as [neg ->].
  destruct body as [|c rest]; [reflexivity|].
  cbn [String.eqb negb andb] in H.
  rewrite (parse_digits_not_all_digits _ 0 H). reflexivity.
Qed.

Lemma Itoa_not_empty z : in_int64 z = true -> String.eqb (Itoa z) "" = false.
Proof.
  intros H. destruct (String.eqb_spec (Itoa z) "") as [E|]; [|reflexivity].
  pose proof (Atoi_Itoa z H) as Hr. rewrite E in Hr. discriminate.
Qed.
End Squawk.

(** C5: the squawk decodes from a JSON string and from a JSON number to the
    same integer, the empty string decodes to 0, and a string that is not a
    decimal integer is an error: ["7500"] gives 7500, [7500] gives 7500, [""]
    gives 0, ["invalid"] is refused; and so for every integer of the range
    written in decimal, and every non-empty string that is not one. *)
Theorem SqkValue_UnmarshalJSON_cases :
  aircraft.SqkValue_UnmarshalJSON (aircraft.JString "7500") = inr 7500
  /\ aircraft.SqkValue_UnmarshalJSON (aircraft.JNumber "7500") = inr 7500
  /\ aircraft.SqkValue_UnmarshalJSON (aircraft.JString "") = inr 0
  /\ aircraft.SqkValue_UnmarshalJSON (aircraft.JString "invalid")
     = inl (aircraft.NumError "invalid")
  /\ (forall n,
        if strconv.in_int64 n
        then aircraft.SqkValue_UnmarshalJSON (aircraft.JString (strconv.Itoa n))
             = inr n
             /\ aircraft.SqkValue_UnmarshalJSON (aircraft.JNumber (strconv.Itoa n))
                = inr n
        else True)
  /\ (forall s,
        if strconv.is_decimal_integer s || String.eqb s ""
        then True
        else aircraft.SqkValue_UnmarshalJSON (aircraft.JString s)
             = inl (aircraft.NumError s)).
Proof.
  split; [reflexivity|]. split; [reflexivity|]. split; [reflexivity|].
  split; [reflexivity|]. split.
  - intros n. destruct (strconv.in_int64 n) eqn:Hn; [|exact I].
    rewrite SqkValue_string, SqkValue_number, Itoa_not_empty, Atoi_Itoa by exact Hn.
    split; reflexivity.
  - intros s. destruct (strconv.is_decimal_integer s) eqn:Hd; [exact I|].
    destruct (String.eqb s "") eqn:He; [exact I|]. cbn [orb].
    rewrite SqkValue_string, He, (Atoi_not_decimal s Hd). reflexivity.
Qed.

(** ** Runs of the scenarios *)

(** Two aircraft and a notifier that fails every time: both are detected,
    both notifications are attempted, both errors are reported, both aircraft
    are tracked, and the poll itself returns no error. *)
Example fetchAndProcess_with_failing_notifier :
  let res := monitor.fetchAndProcess scenarios.failing_deps scenarios.test_cfg
               monitor.NewMonitorWithDeps in
  res.1 = None
  /\ monitor.detected res.2 = 2%nat
  /\ map monitor.callsign (rev (monitor.sends res.2)) = ["ERR1"; "TEST1"]
  /\ monitor.failures res.2 = 2%nat
  /\ is_Some (monitor.aircraftHistory res.2 !! "ERR1")
  /\ is_Some (monitor.aircraftHistory res.2 !! "TEST1").
Proof.
  cbv zeta. repeat split; try (vm_compute; reflexivity);
    vm_compute; eexists; reflexivity.
Qed.

(** The whole of [Fetch] for the observer on the meridian: one request, with
    no location in its query, and the list comes back. *)
Example Fetch_on_meridian_sends_no_location :
  let res := fetch.Fetch (scenarios.expiring_env (Some 0%nat)) 1
               (scenarios.start scenarios.on_meridian) in
  res.1 = Some (inr scenarios.empty_list)
  /\ map (fun s => fetch.Query (fetch.Target (fetch.request s)) !! "lat")
         (fetch.sent res.2) = [None]
  /\ map (fun s => fetch.Query (fetch.Target (fetch.request s)) !! "lng")
         (fetch.sent res.2) = [None]
  /\ map (fun s => fetch.Query (fetch.Target (fetch.request s)) !! "fDstU")
         (fetch.sent res.2) = [None].
Proof. vm_compute. repeat split. Qed.

(** The sequence of the specification with closer-only mode and no re-notify
    interval: the first sighting notifies, a second one farther away does
    not, a third one closer than the second does. *)
Example closer_only_sequence :
  let cfg := monitor.with_Enabled true
               {| monitor.Latitude := 51.5; monitor.Longitude := 0;
                  monitor.Enabled := true; monitor.NotifyOnCloserOnly := true;
                  monitor.ReNotifyAfter := 0 |} in
  let s1 := monitor.notify_decision cfg 100 "ABCDEF" 10 ∅ in
  let s2 := monitor.notify_decision cfg 200 "ABCDEF" 12 s1.2 in
  let s3 := monitor.notify_decision cfg 300 "ABCDEF" 11 s2.2 in
  (s1.1, s2.1, s3.1) = (true, false, true).
Proof. vm_compute. reflexivity. Qed.

(** The fetcher of the package's filter test, off both axes: every filter
    and the location are in the query, the military flag as ["1"]. *)
Example Fetch_with_all_filters :
  let f := fetch.SetLocation 51.5 (-0.125) 100
             (fetch.SetFilters "A320" 10000 40000 true "Test Airlines" "TEST123"
                (fetch.NewFetcher scenarios.radar_url)) in
  let env := scenarios.expiring_env (Some 0%nat) in
  let q := fetch.Query (fetch.Target (fetch.poll_request env f scenarios.base)) in
  map (fun key => fetch.Values_Get key q)
      ["fTypQ"; "fAltL"; "fAltU"; "fMilQ"; "fOpQ"; "fCallQ"]
  = ["A320"; "10000"; "40000"; "1"; "Test Airlines"; "TEST123"]
  /\ map (fun key => q !! key) ["lat"; "lng"; "fDstU"]
     = [Some [fetch.strconv_FormatFloat env 51.5];
        Some [fetch.strconv_FormatFloat env (-0.125)];
        Some [fetch.strconv_FormatFloat env 100]].
Proof. vm_compute. split; reflexivity. Qed.

(** The fetcher of the partial-filter test: only the aircraft type is sent. *)
Example Fetch_with_partial_filters :
  let f := fetch.SetFilters "A320" 0 0 false "" ""
             (fetch.NewFetcher scenarios.radar_url) in
  let env := scenarios.expiring_env (Some 0%nat) in
  fetch.Query (fetch.Target (fetch.poll_request env f scenarios.base))
  = fetch.Values_Set "fTypQ" "A320" ∅.
Proof. reflexivity. Qed.

(** * Beyond the claims *)

(** ** Package [aircraft]: the other polymorphic fields *)

Section OtherFields.
Import aircraft.

Lemma Atoi_in_int64 s n : strconv.Atoi s = Some n -> strconv.in_int64 n = true.
Proof.
  unfold strconv.Atoi.
  destruct (match s with
            | String "+"%char rest => (false, rest)
            | String "-"%char rest => (true, rest)
            | _ => (false, s)
            end) as [neg body].
  destruct body as [|c rest]; [discriminate|].
  destruct (strconv.parse_digits (String c rest) 0) as [m|]; [|discriminate].
  cbv zeta. destruct (strconv.in_int64 (if neg then - m else m)) eqn:E;
    [|discriminate].
  intros [= <-]. exact E.
Qed.

(** The revision marker decodes every int64 from its decimal string and
    from its number; the empty string and [null], which the squawk reads as
    0, are errors here, and on every other value the two decoders agree. *)
Theorem LastDvValue_UnmarshalJSON_spec :
  (forall n,
     if strconv.in_int64 n
     then LastDvValue_UnmarshalJSON (JString (strconv.Itoa n)) = inr n
          /\ LastDvValue_UnmarshalJSON (JNumber (strconv.Itoa n)) = inr n
     else True)
  /\ LastDvValue_UnmarshalJSON (JString "") = inl (NumError "")
  /\ LastDvValue_UnmarshalJSON JNull = inl (NumError "")
  /\ SqkValue_UnmarshalJSON JNull = inr 0
  /\ (forall data,
        match data with
        | JNull => True
        | JString s =>
            if String.eqb s "" then True
            else LastDvValue_UnmarshalJSON data = SqkValue_UnmarshalJSON data
        | _ => LastDvValue_UnmarshalJSON data = SqkValue_UnmarshalJSON data
        end).
Proof.
  split; [|split; [reflexivity|split; [reflexivity|split; [reflexivity|]]]].
  - intros n. destruct (strconv.in_int64 n) eqn:Hn; [|exact I].
    unfold LastDvValue_UnmarshalJSON. cbn [json_Unmarshal_string json_Unmarshal_int].
    rewrite (Atoi_Itoa n Hn). split; reflexivity.
  - intros [| b | literal | s | |]; try reflexivity; try exact I.
    destruct (String.eqb s "") eqn:E; [exact I|].
    unfold LastDvValue_UnmarshalJSON, SqkValue_UnmarshalJSON.
    cbn [json_Unmarshal_string]. rewrite E. reflexivity.
Qed.

(** The four categorical fields keep any string as it is and write an
    integer number out in decimal, which reads back as the same number; a
    number that is no integer, a boolean, an array and an object are refused
    with the error that names the type; and the four decoders agree. *)
Theorem categorical_fields_decode :
  (forall s, WTCValue_UnmarshalJSON (JString s) = inr s)
  /\ (forall literal,
        match strconv.Atoi literal with
        | Some n =>
            WTCValue_UnmarshalJSON (JNumber literal) = inr (strconv.Itoa n)
            /\ strconv.Atoi (strconv.Itoa n) = Some n
        | None =>
            WTCValue_UnmarshalJSON (JNumber literal)
            = inl (CouldNotUnmarshal "WTCValue" (JNumber literal))
        end)
  /\ (forall b, WTCValue_UnmarshalJSON (JBool b)
                = inl (CouldNotUnmarshal "WTCValue" (JBool b)))
  /\ WTCValue_UnmarshalJSON JArray = inl (CouldNotUnmarshal "WTCValue" JArray)
  /\ WTCValue_UnmarshalJSON JObject = inl (CouldNotUnmarshal "WTCValue" JObject)
  /\ (forall data,
        match WTCValue_UnmarshalJSON data with
        | inr v =>
            SpeciesValue_UnmarshalJSON data = inr v
            /\ EngTypeValue_UnmarshalJSON data = inr v
            /\ EngMountValue_UnmarshalJSON data = inr v
        | inl _ =>
            SpeciesValue_UnmarshalJSON data
            = inl (CouldNotUnmarshal "SpeciesValue" data)
            /\ EngTypeValue_UnmarshalJSON data
               = inl (CouldNotUnmarshal "EngTypeValue" data)
            /\ EngMountValue_UnmarshalJSON data
               = inl (CouldNotUnmarshal "EngMountValue" data)
        end).
Proof.
  split; [reflexivity|]. split; [|split; [reflexivity|split; [reflexivity|split; [reflexivity|]]]].
  - intros literal. unfold WTCValue_UnmarshalJSON, string_or_number.
    cbn [json_Unmarshal_string json_Unmarshal_int].
    destruct (strconv.Atoi literal) as [n|] eqn:E; [|reflexivity].
    split; [reflexivity|]. apply Atoi_Itoa. eapply Atoi_in_int64. exact E.
  - intros data.
    unfold WTCValue_UnmarshalJSON, SpeciesValue_UnmarshalJSON,
      EngTypeValue_UnmarshalJSON, EngMountValue_UnmarshalJSON, string_or_number.
    destruct (json_Unmarshal_string data); [|repeat split].
    destruct (json_Unmarshal_int data); repeat split.
Qed.
End OtherFields.

(** ** Package [geo]: bearing, and the range of the distance *)

Section GeoReals.
Local Open Scope R_scope.





Lemma deg_scale t : t * 180 / PI * PI = t * 180.
Proof. pose proof PI_RGT_0. field. lra. Qed.






End GeoReals.

(** ** Package [fetch]: [Client.Get] *)

Section ClientGet.
Import fetch.
Variables (env : Env) (req : Request).

(** One round of the loop after which it goes on. *)
Lemma Get_loop_retry n a e sent sl :
  retried (client_Do env sent req) = true ->
  Get_loop env req (S n) a e sent sl
  = Get_loop env req n (S a) (Some (retry_error (client_Do env sent req)))
      (req :: sent) (sl + sleep_before a).
Proof.
  intros H. cbn [Get_loop]. unfold sleep_before.
  replace (if (0 <? a)%nat then sl + Z.of_nat a * Second else sl)
    with (sl + (if (0 <? a)%nat then Z.of_nat a * Second else 0))
    by (destruct (0 <? a)%nat; lia).
  destruct (client_Do env sent req) as [resp|]; [|reflexivity].
  cbn [retried] in H. apply andb_prop in H. destruct H as [H2 H4].
  apply negb_true_iff in H2, H4. rewrite H2, H4. reflexivity.
Qed.

(** One round of the loop that ends it. *)
Lemma Get_loop_final n a e sent sl :
  retried (client_Do env sent req) = false ->
  exists resp,
    client_Do env sent req = Some resp
    /\ Get_loop env req (S n) a e sent sl
       = {| get_result :=
              if is_2xx resp then inr resp
              else inl (ErrFailedAfter 3 (Some (GetHTTP (StatusCode resp))));
            get_sent := req :: sent;
            get_slept := sl + sleep_before a |}.
Proof.
  intros H. cbn [Get_loop]. unfold sleep_before.
  replace (if (0 <? a)%nat then sl + Z.of_nat a * Second else sl)
    with (sl + (if (0 <? a)%nat then Z.of_nat a * Second else 0))
    by (destruct (0 <? a)%nat; lia).
  destruct (client_Do env sent req) as [resp|]; [|discriminate].
  exists resp. split; [reflexivity|]. cbn [retried] in H.
  destruct (is_2xx resp); [reflexivity|].
  destruct (is_4xx resp); [reflexivity|discriminate].
Qed.

(** Whatever the server does, the loop sends at most [n] more requests, all
    of them the same, and sleeps no longer than before each of [n] further
    attempts. *)
Lemma Get_loop_bounds n : forall a e sent sl,
  exists k,
    (k <= n)%nat
    /\ get_sent (Get_loop env req n a e sent sl) = (repeat req k ++ sent)%list
    /\ sl <= get_slept (Get_loop env req n a e sent sl)
          <= sl + Z.of_nat k * (Z.of_nat (a + n) * Second)
    /\ ((0 < n)%nat -> (0 < k)%nat).
Proof.
  induction n as [|n IH]; intros a e sent sl.
  - exists 0%nat. cbn. unfold Second. repeat split; lia.
  - destruct (retried (client_Do env sent req)) eqn:Hr.
    + rewrite (Get_loop_retry _ _ _ _ _ Hr).
      destruct (IH (S a) (Some (retry_error (client_Do env sent req)))
                  (req :: sent) (sl + sleep_before a)) as (k & Hk & Hs & Hsl & _).
      exists (S k). split; [lia|]. split.
      * rewrite Hs. clear. induction k as [|k IHk]; [reflexivity|].
        cbn [repeat app] in *. rewrite IHk. reflexivity.
      * split; [|lia].
        assert (0 <= sleep_before a <= Z.of_nat (a + S n) * Second)
          by (unfold sleep_before, Second; destruct (0 <? a)%nat; lia).
        unfold Second in *. nia.
    + destruct (Get_loop_final n a e sent sl Hr) as (resp & _ & ->).
      exists 1%nat. cbn [get_sent get_slept repeat app].
      split; [lia|]. split; [reflexivity|]. split; [|lia].
      unfold sleep_before, Second. destruct (0 <? a)%nat; lia.
Qed.
End ClientGet.

Section ClientGetOutcome.
Import fetch.
Variables (env : Env) (url : string) (u : URL).
Hypothesis Hparse : url_Parse env url = Some u.
Let req := plain_request "GET" u.

(** The run of [Get] up to the first final answer. *)
Lemma Get_first_final (i : nat) :
  (i < 4)%nat ->
  (forall j, (j < i)%nat -> retried (client_Do env (repeat req j) req) = true) ->
  retried (client_Do env (repeat req i) req) = false ->
  exists resp,
    client_Do env (repeat req i) req = Some resp
    /\ Get env url
       = {| get_result :=
              if is_2xx resp then inr resp
              else inl (ErrFailedAfter 3 (Some (GetHTTP (StatusCode resp))));
            get_sent := repeat req (S i);
            get_slept := Second * (Z.of_nat i * (Z.of_nat i + 1) / 2) |}.
Proof.
  intros Hi Hbefore Hfinal. unfold Get. rewrite Hparse. fold req.
  assert (H0 : (0 < i)%nat -> retried (client_Do env [] req) = true)
    by (intros; apply (Hbefore 0%nat); lia).
  assert (H1 : (1 < i)%nat -> retried (client_Do env [req] req) = true)
    by (intros; apply (Hbefore 1%nat); lia).
  assert (H2 : (2 < i)%nat -> retried (client_Do env [req; req] req) = true)
    by (intros; apply (Hbefore 2%nat); lia).
  destruct i as [|[|[|[|i]]]]; [| | | |lia];
    rewrite ?(Get_loop_retry env req 3 0 None [] 0 (H0 ltac:(lia)));
    rewrite ?(Get_loop_retry env req 2 1 _ [req] _ (H1 ltac:(lia)));
    rewrite ?(Get_loop_retry env req 1 2 _ [req; req] _ (H2 ltac:(lia)));
    match goal with
    | |- context [Get_loop env req (S ?n) ?a ?e ?s ?sl] =>
        destruct (Get_loop_final env req n a e s sl Hfinal) as (resp & Hr & ->)
    end;
    exists resp; (split; [exact Hr|reflexivity]).
Qed.

(** [Get] stops at the first answer that is a response with a 2xx or a 4xx
    status: the 2xx response is returned, the 4xx status is the error, no
    further request is sent, and the [i] answers before it cost
    [1 + .. + i] seconds of sleep. *)
Theorem Client_Get_stops_at_first_final (i : nat) :
  (i < 4)%nat ->
  (forall j, (j < i)%nat -> retried (client_Do env (repeat req j) req) = true) ->
  retried (client_Do env (repeat req i) req) = false ->
  exists resp,
    client_Do env (repeat req i) req = Some resp
    /\ Get env url
       = {| get_result :=
              if is_2xx resp then inr resp
              else inl (ErrFailedAfter 3 (Some (GetHTTP (StatusCode resp))));
            get_sent := repeat req (S i);
            get_slept := Second * (Z.of_nat i * (Z.of_nat i + 1) / 2) |}.
Proof. exact (Get_first_final i). Qed.

(** The run of [Get] when no answer is final. *)
Lemma Get_no_final :
  (forall j, (j < 4)%nat -> retried (client_Do env (repeat req j) req) = true) ->
  Get env url
  = {| get_result :=
         inl (ErrFailedAfter 3
                (Some (retry_error (client_Do env (repeat req 3) req))));
       get_sent := repeat req 4;
       get_slept := 6 * Second |}.
Proof.
  intros H. unfold Get. rewrite Hparse. fold req.
  rewrite (Get_loop_retry env req 3 0 None [] 0 (H 0%nat ltac:(lia))).
  rewrite (Get_loop_retry env req 2 1 _ [req] _ (H 1%nat ltac:(lia))).
  rewrite (Get_loop_retry env req 1 2 _ [req; req] _ (H 2%nat ltac:(lia))).
  rewrite (Get_loop_retry env req 0 3 _ [req; req; req] _ (H 3%nat ltac:(lia))).
  reflexivity.
Qed.

(** When none of four answers is final, [Get] has sent four requests and
    slept [1 + 2 + 3] seconds, and fails with the error of the fourth answer
    under the words "after 3 attempts". *)
Theorem Client_Get_gives_up :
  (forall j, (j < 4)%nat -> retried (client_Do env (repeat req j) req) = true) ->
  Get env url
  = {| get_result :=
         inl (ErrFailedAfter 3
                (Some (retry_error (client_Do env (repeat req 3) req))));
       get_sent := repeat req 4;
       get_slept := 6 * Second |}.
Proof. exact (Get_no_final). Qed.
End ClientGetOutcome.

(** Whatever the server answers, [Get] sends between one and four requests,
    all the same, and sleeps six seconds at most; when the URL does not
    parse it sends nothing. *)
Theorem Client_Get_bounds (env : fetch.Env) (url : string) :
  match fetch.url_Parse env url with
  | None =>
      fetch.Get env url
      = {| fetch.get_result := inl fetch.ErrCreateRequest;
           fetch.get_sent := []; fetch.get_slept := 0 |}
  | Some u =>
      exists k,
        (1 <= k <= 4)%nat
        /\ fetch.get_sent (fetch.Get env url)
           = repeat (fetch.plain_request "GET" u) k
        /\ 0 <= fetch.get_slept (fetch.Get env url) <= 6 * fetch.Second
  end.
Proof.
  destruct (fetch.url_Parse env url) as [u|] eqn:Hparse;
    [|unfold fetch.Get; rewrite Hparse; reflexivity].
  set (req := fetch.plain_request "GET" u).
  assert (Hcases :
    (exists i, (i < 4)%nat
       /\ (forall j, (j < i)%nat ->
             fetch.retried (fetch.client_Do env (repeat req j) req) = true)
       /\ fetch.retried (fetch.client_Do env (repeat req i) req) = false)
    \/ (forall j, (j < 4)%nat ->
          fetch.retried (fetch.client_Do env (repeat req j) req) = true)).
  { destruct (fetch.retried (fetch.client_Do env (repeat req 0) req)) eqn:H0;
      [|left; exists 0%nat; split; [lia|]; split; [intros; lia|exact H0]].
    destruct (fetch.retried (fetch.client_Do env (repeat req 1) req)) eqn:H1;
      [|left; exists 1%nat; split; [lia|]; split; [|exact H1];
        intros j Hj; assert (j = 0%nat) as -> by lia; exact H0].
    destruct (fetch.retried (fetch.client_Do env (repeat req 2) req)) eqn:H2;
      [|left; exists 2%nat; split; [lia|]; split; [|exact H2];
        intros [|[|j]] Hj; [exact H0|exact H1|lia]].
    destruct (fetch.retried (fetch.client_Do env (repeat req 3) req)) eqn:H3;
      [|left; exists 3%nat; split; [lia|]; split; [|exact H3];
        intros [|[|[|j]]] Hj; [exact H0|exact H1|exact H2|lia]].
    right. intros [|[|[|[|j]]]] Hj; [exact H0|exact H1|exact H2|exact H3|lia]. }
  destruct Hcases as [(i & Hi & Hbefore & Hfinal) | Hall].
  - destruct (Get_first_final env url u Hparse i Hi Hbefore Hfinal)
      as (resp & _ & ->).
    exists (S i). cbn [fetch.get_sent fetch.get_slept].
    split; [lia|]. split; [reflexivity|].
    unfold fetch.Second.
    destruct i as [|[|[|[|i]]]]; [| | | |lia];
      vm_compute; split; intro; discriminate.
  - rewrite (Get_no_final env url u Hparse Hall).
    exists 4%nat. cbn [fetch.get_sent fetch.get_slept].
    split; [lia|]. split; [reflexivity|]. unfold fetch.Second. lia.
Qed.

(** After a 503 and a transport error the third request brings the feed,
    three seconds of sleep later. *)
Lemma Client_Get_stops_at_first_final_witness :
  fetch.Get scenarios.flaky_env scenarios.radar_url
  = {| fetch.get_result := inr scenarios.feed;
       fetch.get_sent := repeat (fetch.plain_request "GET" scenarios.base) 3;
       fetch.get_slept := 3 * fetch.Second |}.
Proof.
  destruct (Client_Get_stops_at_first_final scenarios.flaky_env
              scenarios.radar_url scenarios.base eq_refl 2)
    as (resp & Hresp & Hget).
  - lia.
  - intros [|[|j]] Hj; [reflexivity|reflexivity|lia].
  - reflexivity.
  - injection Hresp as <-. exact Hget.
Defined.

Lemma Client_Get_gives_up_witness :
  fetch.Get scenarios.down_env scenarios.radar_url
  = {| fetch.get_result :=
         inl (fetch.ErrFailedAfter 3 (Some (fetch.GetHTTP 503)));
       fetch.get_sent := repeat (fetch.plain_request "GET" scenarios.base) 4;
       fetch.get_slept := 6 * fetch.Second |}.
Proof.
  apply (Client_Get_gives_up scenarios.down_env scenarios.radar_url
           scenarios.base eq_refl).
  intros j _. reflexivity.
Defined.

(** ** Package [fetch]: what [login] and [Fetch] leave behind *)

Section Sessions.
Import fetch.

Lemma same_config_refl f : same_config f f.
Proof. exists (sessionCookie f), (authMethod f). destruct f; reflexivity. Qed.

Lemma same_config_trans f g h :
  same_config f g -> same_config g h -> same_config f h.
Proof.
  intros (c & m & ->) (c' & m' & ->). exists c, m. reflexivity.
Qed.

Lemma same_config_set_session c m f : same_config (set_session c m f) f.
Proof. exists c, m. reflexivity. Qed.

Lemma same_config_credentials f g :
  same_config f g -> Username f = Username g /\ Password f = Password g.
Proof. intros (c & m & ->). split; reflexivity. Qed.

Ltac auth_step_tac :=
  intros st; destruct st as [f tr];
  repeat (cbn [fetcher sent fst snd];
          match goal with
          | |- context [url_Parse ?e ?s] => destruct (url_Parse e s)
          | |- context [client_Do ?e ?h ?r] => destruct (client_Do e h r)
          | |- context [find_rauth ?c] => destruct (find_rauth c)
          | |- context [is_json ?c] => destruct (is_json c)
          end);
  cbn [fetcher sent fst snd];
  repeat split;
  try reflexivity; try apply same_config_set_session;
  try (left; reflexivity); try (right; eexists; reflexivity);
  try (eexists; reflexivity).

Lemma tryFormLogin_step env : auth_step ByFormLogin (tryFormLogin env).
Proof.
  unfold auth_step, tryFormLogin, bind, get_fetcher, Parse, Do, ret, fail,
    modify_fetcher. auth_step_tac.
Qed.

Lemma tryBasicAuth_step env : auth_step ByBasicAuth (tryBasicAuth env).
Proof.
  unfold auth_step, tryBasicAuth, bind, get_fetcher, Parse, Do, ret, fail,
    modify_fetcher, set_authMethod. auth_step_tac.
Qed.

Lemma tryURLAuth_step env : auth_step ByURLAuth (tryURLAuth env).
Proof.
  unfold auth_step, tryURLAuth, bind, get_fetcher, Parse, Do, ret, fail,
    modify_fetcher, set_authMethod. auth_step_tac.
Qed.

Lemma tryNoAuth_step env : auth_step ByNoAuth (tryNoAuth env).
Proof.
  unfold auth_step, tryNoAuth, bind, get_fetcher, Parse, Do, ret, fail,
    modify_fetcher, set_authMethod. auth_step_tac.
Qed.
End Sessions.

Section Login.
Import fetch.

Lemma try_methods_outcome (steps : list (Origin * M unit)) :
  Forall (fun os => auth_step os.1 os.2 /\ os.1 <> ByFetch) steps ->
  forall st,
    match try_methods (map snd steps) st with
    | (inl _, st') =>
        fetcher st' = fetcher st /\ auth_requests (length steps) st st'
    | (inr _, st') =>
        same_config (fetcher st') (fetcher st)
        /\ method_of_newest st'
        /\ auth_requests (length steps) st st'
    end.
Proof.
  induction steps as [|[o step] steps IH]; intros Hall st.
  - cbn. split; [reflexivity|]. exists []. repeat split; [cbn; lia|constructor].
  - inversion Hall as [|? ? [Hstep Ho] Hrest]; subst. cbn [fst snd] in *.
    specialize (IH Hrest). cbn [map snd try_methods].
    specialize (Hstep st).
    destruct (step st) as [[err|[]] st1].
    + destruct Hstep as [Hf Hsent]. specialize (IH st1).
      assert (Hone : auth_requests 1 st st1).
      { destruct Hsent as [E|[req E]].
        - exists []. rewrite E. repeat split; [cbn; lia|constructor].
        - exists [{| origin := o; request := req |}]. rewrite E.
          repeat split; [cbn; lia|]. constructor; [exact Ho|constructor]. }
      assert (Hadd : forall st2, auth_requests (length steps) st1 st2 ->
                                 auth_requests (length ((o, step) :: steps)) st st2).
      { intros st2 (n2 & E2 & L2 & F2). destruct Hone as (n1 & E1 & L1 & F1).
        exists (n2 ++ n1)%list. rewrite E2, E1, app_assoc.
        split; [reflexivity|]. split.
        - rewrite length_app. cbn [length]. lia.
        - apply Forall_app. split; assumption. }
      destruct (try_methods (map snd steps) st1) as [[err'|[]] st2].
      * destruct IH as [Hf2 Hr2]. split; [congruence|]. apply Hadd, Hr2.
      * destruct IH as (Hc & Hm & Hr2). rewrite Hf in Hc.
        split; [exact Hc|]. split; [exact Hm|]. apply Hadd, Hr2.
    + destruct Hstep as (Hc & Hm & req & E).
      split; [exact Hc|]. split.
      * exists o, req, (sent st). repeat split; assumption.
      * exists [{| origin := o; request := req |}]. rewrite E.
        repeat split; [cbn; lia|]. constructor; [exact Ho|constructor].
Qed.

(** What [login] leaves behind, for the proofs about [Fetch]. *)
Lemma login_effect env st :
  match login env st with
  | (inl _, st') =>
      fetcher st' = fetcher st /\ auth_requests 4 st st'
  | (inr _, st') =>
      same_config (fetcher st') (fetcher st)
      /\ method_of_newest st'
      /\ authMethod (fetcher st') <> ""
      /\ auth_requests 4 st st'
  end.
Proof.
  unfold login, bind, get_fetcher.
  destruct (String.eqb (Username (fetcher st)) "" || String.eqb (Password (fetcher st)) "").
  - cbn. split; [reflexivity|]. exists []. repeat split; [cbn; lia|constructor].
  - pose proof (try_methods_outcome
      [(ByFormLogin, tryFormLogin env); (ByBasicAuth, tryBasicAuth env);
       (ByURLAuth, tryURLAuth env); (ByNoAuth, tryNoAuth env)]) as H.
    cbn [map snd length] in H. unfold authMethods.
    specialize (H ltac:(repeat constructor; cbn [fst snd];
                        auto using tryFormLogin_step, tryBasicAuth_step,
                          tryURLAuth_step, tryNoAuth_step; discriminate) st).
    destruct (try_methods _ st) as [[err|[]] st']; [exact H|].
    destruct H as (Hc & Hm & Hr). repeat split; try assumption.
    destruct Hm as (o & req & rest & _ & Ho & ->).
    destruct o; try discriminate. congruence.
Qed.

(** [login] sends at most four requests, none of them a poll, and changes
    nothing but the session: when it fails the fetcher is as it was, and when
    it succeeds [authMethod] is the method of the function whose request was
    the last one sent. *)
Theorem login_outcome env st :
  match login env st with
  | (inl _, st') =>
      fetcher st' = fetcher st /\ auth_requests 4 st st'
  | (inr _, st') =>
      same_config (fetcher st') (fetcher st)
      /\ method_of_newest st'
      /\ authMethod (fetcher st') <> ""
      /\ auth_requests 4 st st'
  end.
Proof. exact (login_effect env st). Qed.
End Login.

Section FetchInvariants.
Import fetch.

Lemma sent_more_refl st : sent_more 0 st st.
Proof. exists []. split; reflexivity. Qed.

Lemma sent_more_trans n1 n2 st1 st2 st3 :
  sent_more n1 st1 st2 -> sent_more n2 st2 st3 -> sent_more (n2 + n1) st1 st3.
Proof.
  intros (a & Ea & La) (b & Eb & Lb). exists (b ++ a)%list.
  rewrite Eb, Ea, app_assoc, length_app. split; [reflexivity|lia].
Qed.

Lemma auth_requests_sent_more n st st' :
  auth_requests n st st' -> exists k, (k <= n)%nat /\ sent_more k st st'.
Proof.
  intros (newer & E & L & _). exists (length newer). split; [exact L|].
  exists newer. split; [exact E|reflexivity].
Qed.

(** [authenticate] is [login] or nothing. *)
Lemma authenticate_outcome env st :
  match authenticate env st with
  | (inl _, st') => fetcher st' = fetcher st /\ auth_requests 4 st st'
  | (inr _, st') =>
      same_config (fetcher st') (fetcher st)
      /\ auth_requests 4 st st'
      /\ (Username (fetcher st) <> "" \/ Password (fetcher st) <> "" ->
          authMethod (fetcher st') <> "")
  end.
Proof.
  rewrite authenticate_guard.
  destruct ((negb (String.eqb (Username (fetcher st)) "")
             || negb (String.eqb (Password (fetcher st)) ""))
            && String.eqb (authMethod (fetcher st)) "") eqn:G.
  - pose proof (login_effect env st) as H.
    destruct (login env st) as [[err|[]] st']; [exact H|].
    destruct H as (Hc & _ & Hm & Hr).
    split; [exact Hc|]. split; [exact Hr|]. intros _. exact Hm.
  - split; [apply same_config_refl|]. split.
    + exists []. repeat split; [cbn; lia|constructor].
    + intros Hcred. apply andb_false_iff in G. destruct G as [G|G].
      * apply orb_false_iff in G. destruct G as [Gu Gp].
        apply negb_false_iff in Gu, Gp.
        apply String.eqb_eq in Gu, Gp. tauto.
      * intros E. rewrite E in G. discriminate.
Qed.

(** The state after the request of [send_poll]. *)
Lemma send_poll_outcome env st :
  match send_poll env st with
  | (r, st') =>
      same_config (fetcher st') (fetcher st)
      /\ (exists k, (k <= 5)%nat /\ sent_more k st st')
      /\ match r with
         | inr _ =>
             Username (fetcher st) <> "" \/ Password (fetcher st) <> "" ->
             authMethod (fetcher st') <> ""
         | inl _ => True
         end
  end.
Proof.
  unfold send_poll, bind at 1.
  pose proof (authenticate_outcome env st) as Ha.
  destruct (authenticate env st) as [[err|[]] st1].
  - destruct Ha as [Hf Hr]. split; [rewrite Hf; apply same_config_refl|].
    split; [|exact I].
    destruct (auth_requests_sent_more _ _ _ Hr) as (k & Hk & Hs).
    exists k. split; [lia|exact Hs].
  - destruct Ha as (Hc & Hr & Hm).
    destruct (auth_requests_sent_more _ _ _ Hr) as (k & Hk & Hs).
    unfold bind, get_fetcher, Parse, Do, ret, fail.
    destruct (url_Parse env (BaseURL (fetcher st1))) as [u|].
    + destruct (client_Do env _ _); cbn [fetcher sent];
        (split; [exact Hc|]);
        (split; [exists (1 + k)%nat; split; [lia|];
                 apply (sent_more_trans _ _ _ st1); [exact Hs|];
                 eexists [_]; split; reflexivity|]);
        [exact Hm|exact I].
    + split; [exact Hc|]. split; [|exact I]. exists k. split; [lia|exact Hs].
Qed.

(** [Fetch] never touches the configuration of the fetcher -- base URL,
    filters, location, credentials -- and never takes back a request: the
    fetcher afterwards differs in the session fields at most, and the
    requests sent before are all still on record, in order. *)
Theorem Fetch_preserves_config env fuel : forall st,
  same_config (fetcher (Fetch env fuel st).2) (fetcher st)
  /\ exists n, sent_more n st (Fetch env fuel st).2.
Proof.
  induction fuel as [|fuel IH]; intros st.
  - cbn. split; [apply same_config_refl|]. exists 0%nat. apply sent_more_refl.
  - rewrite Fetch_unfold.
    pose proof (send_poll_outcome env st) as Hp.
    destruct (send_poll env st) as [[err|resp] st1];
      destruct Hp as (Hc & (k & _ & Hs) & _).
    + cbn [snd]. split; [exact Hc|]. exists k. exact Hs.
    + destruct (is_login_redirect resp).
      * pose proof (login_effect env (clear_session st1)) as Hl.
        assert (Hclear : same_config (fetcher (clear_session st1)) (fetcher st))
          by (eapply same_config_trans; [apply same_config_set_session|exact Hc]).
        assert (Hs' : sent_more k st (clear_session st1)) by exact Hs.
        destruct (login env (clear_session st1)) as [[err|[]] st2].
        -- destruct Hl as [Hf Hr]. cbn [snd]. rewrite Hf.
           split; [exact Hclear|].
           destruct (auth_requests_sent_more _ _ _ Hr) as (k2 & _ & Hs2).
           eexists. eapply sent_more_trans; eassumption.
        -- destruct Hl as (Hc2 & _ & _ & Hr).
           destruct (IH st2) as (Hc3 & n3 & Hs3).
           split.
           ++ eapply same_config_trans; [exact Hc3|].
              eapply same_config_trans; [exact Hc2|exact Hclear].
           ++ destruct (auth_requests_sent_more _ _ _ Hr) as (k2 & _ & Hs2).
              eexists. eapply sent_more_trans; [|exact Hs3].
              eapply sent_more_trans; eassumption.
      * cbn [snd]. split; [exact Hc|]. exists k. exact Hs.
Qed.

(** With a credential set, a [Fetch] that returns a list leaves a method
    established, so that the next call starts without logging in. *)
Theorem Fetch_success_keeps_session env fuel : forall st acList,
  Username (fetcher st) <> "" \/ Password (fetcher st) <> "" ->
  (Fetch env fuel st).1 = Some (inr acList) ->
  authMethod (fetcher (Fetch env fuel st).2) <> ""
  /\ authenticate env (Fetch env fuel st).2 = (inr tt, (Fetch env fuel st).2).
Proof.
  assert (Hskip : forall st', authMethod (fetcher st') <> "" ->
                              authenticate env st' = (inr tt, st')).
  { intros st' Hm. rewrite authenticate_guard.
    rewrite (String_eqb_neq _ _ Hm), andb_false_r. reflexivity. }
  induction fuel as [|fuel IH]; intros st acList Hcred Hok; [discriminate|].
  rewrite Fetch_unfold in *.
  pose proof (send_poll_outcome env st) as Hp.
  destruct (send_poll env st) as [[err|resp] st1]; [discriminate|].
  destruct Hp as (Hc & _ & Hm). specialize (Hm Hcred).
  destruct (is_login_redirect resp).
  - pose proof (login_effect env (clear_session st1)) as Hl.
    destruct (login env (clear_session st1)) as [[err|[]] st2]; [discriminate|].
    destruct Hl as (Hc2 & _ & _ & _).
    apply (IH st2 acList); [|exact Hok].
    destruct (same_config_credentials _ _ Hc2) as [-> ->].
    cbn [clear_session fetcher set_session Username Password].
    destruct (same_config_credentials _ _ Hc) as [-> ->]. exact Hcred.
  - cbn [fst snd] in *. split; [exact Hm|]. apply Hskip, Hm.
Qed.

(** A fetcher without credentials deals with a poll in one round: it sends
    the poll request and nothing else, never calls itself, and takes a
    redirect to the login page as a re-authentication error, the session
    fields cleared. *)
Theorem Fetch_anonymous env fuel st :
  Username (fetcher st) = "" -> Password (fetcher st) = "" ->
  Fetch env (S fuel) st
  = match url_Parse env (BaseURL (fetcher st)) with
    | None => (Some (inl ErrInvalidBaseURL), st)
    | Some u =>
        let req := poll_request env (fetcher st) u in
        let st1 := {| fetcher := fetcher st;
                      sent := {| origin := ByFetch; request := req |} :: sent st |} in
        match client_Do env (map request (sent st)) req with
        | None => (Some (inl ErrTransport), st1)
        | Some resp =>
            if is_login_redirect resp
            then (Some (inl (ErrReauthenticationFailed ErrCredentialsRequired)),
                  clear_session st1)
            else (Some (read_response env resp), st1)
        end
    end.
Proof.
  intros Hu Hp. rewrite Fetch_unfold.
  unfold send_poll, bind at 1. rewrite authenticate_guard, Hu, Hp.
  cbn [String.eqb negb orb andb].
  unfold bind, get_fetcher, Parse, Do, ret, fail.
  destruct (url_Parse env (BaseURL (fetcher st))) as [u|]; [|reflexivity].
  cbv zeta. destruct (client_Do env _ _) as [resp|]; [|reflexivity].
  destruct (is_login_redirect resp); [|reflexivity].
  rewrite login_requires_both by (left; exact Hu). reflexivity.
Qed.
End FetchInvariants.

(** A first call with credentials: the form login, then the poll. *)
Lemma Fetch_success_keeps_session_witness :
  let res := fetch.Fetch (scenarios.expiring_env (Some 0%nat)) 1
               (scenarios.start scenarios.with_credentials) in
  res.1 = Some (inr scenarios.empty_list)
  /\ fetch.authMethod (fetch.fetcher res.2) <> ""
  /\ fetch.authenticate (scenarios.expiring_env (Some 0%nat)) res.2 = (inr tt, res.2).
Proof.
  cbv zeta. split; [reflexivity|].
  apply (Fetch_success_keeps_session (scenarios.expiring_env (Some 0%nat)) 1
           (scenarios.start scenarios.with_credentials) scenarios.empty_list).
  - left. discriminate.
  - reflexivity.
Defined.

(** Without credentials, a redirect to the login page ends the call. *)
Lemma Fetch_anonymous_witness :
  fetch.Fetch (scenarios.expiring_env None) 1 (scenarios.start scenarios.anonymous)
  = (Some (inl (fetch.ErrReauthenticationFailed fetch.ErrCredentialsRequired)),
     fetch.clear_session
       {| fetch.fetcher := scenarios.anonymous;
          fetch.sent :=
            [{| fetch.origin := fetch.ByFetch;
                fetch.request :=
                  fetch.poll_request (scenarios.expiring_env None)
                    scenarios.anonymous scenarios.base |}] |}).
Proof.
  exact (Fetch_anonymous (scenarios.expiring_env None) 0
           (scenarios.start scenarios.anonymous) eq_refl eq_refl).
Defined.

(** ** Package [fetch]: the response and the request *)

Section ResponseAndRequest.
Import fetch.

(** [startsWith] is the exact, case-sensitive prefix test. *)
Lemma startsWith_iff s prefix :
  startsWith s prefix = true <-> exists rest, s = prefix ++ rest.
Proof.
  unfold startsWith. revert s.
  induction prefix as [|p prefix IH]; intros s.
  - split; [intros _; exists s; reflexivity|intros _; destruct s; reflexivity].
  - destruct s as [|c s]; cbn [strings.HasPrefix].
    + split; [discriminate|intros [rest H]; discriminate].
    + destruct (Ascii.eqb p c) eqn:E.
      * apply Ascii.eqb_eq in E. subst c. rewrite IH.
        split; intros [rest H]; exists rest.
        -- simpl. rewrite H. reflexivity.
        -- simpl in H. injection H as H. exact H.
      * apply Ascii.eqb_neq in E.
        split; [discriminate|]. intros [rest H]. simpl in H.
        injection H as Hc _. congruence.
Qed.

(** The content-type test of [Fetch] is [startsWith] and nothing more. *)
Lemma content_type_test contentType :
  (String.eqb contentType ""
   || (negb (String.eqb contentType "application/json")
       && negb (startsWith contentType "application/json")))
  = negb (startsWith contentType "application/json").
Proof.
  destruct (startsWith contentType "application/json") eqn:Hs.
  - rewrite andb_false_r, orb_false_r.
    destruct contentType; [discriminate|reflexivity].
  - rewrite andb_true_r.
    destruct (String.eqb_spec contentType "application/json") as [->|_];
      [discriminate|].
    apply orb_true_r.
Qed.

(** A response yields a list exactly when its status is 200, its body can
    be read, its content type begins with [application/json] (in this
    spelling: the test is case-sensitive) and the body decodes. *)
Theorem read_response_ok_iff env resp acList :
  read_response env resp = inr acList
  <-> StatusCode resp = 200
      /\ (exists rest, ContentType resp = "application/json" ++ rest)
      /\ exists body, Body resp = Some body
                      /\ json_Unmarshal env body = Some acList.
Proof.
  unfold read_response, StatusOK.
  destruct (Z.eqb_spec (StatusCode resp) 200) as [Hs|Hs]; cbn [negb].
  2: { split; [discriminate|]. intros [H _]. contradiction. }
  destruct (Body resp) as [body|].
  2: { split; [discriminate|]. intros (_ & _ & b & H & _). discriminate. }
  rewrite content_type_test.
  destruct (startsWith (ContentType resp) "application/json") eqn:Hct; cbn [negb].
  - apply startsWith_iff in Hct.
    destruct (json_Unmarshal env body) as [l|] eqn:Hj.
    + split.
      * intros [= <-]. split; [exact Hs|]. split; [exact Hct|].
        exists body. split; [reflexivity|exact Hj].
      * intros (_ & _ & b & [= <-] & Hb). congruence.
    + split; [discriminate|]. intros (_ & _ & b & [= <-] & Hb). congruence.
  - split; [discriminate|]. intros (_ & Hp & _).
    apply startsWith_iff in Hp. congruence.
Qed.

Lemma read_response_ok_iff_witness :
  read_response (scenarios.expiring_env None) scenarios.feed
  = inr scenarios.empty_list.
Proof.
  apply (proj2 (read_response_ok_iff (scenarios.expiring_env None)
                  scenarios.feed scenarios.empty_list)).
  split; [reflexivity|]. split; [exists ""; reflexivity|].
  exists "{}". split; reflexivity.
Defined.

Lemma poll_query_credentials env f u (k : string) :
  k = "password" \/ k = "username" ->
  Query (Target (poll_request env f u)) !! k
  = if String.eqb (authMethod f) "url"
    then Some [if String.eqb k "password" then Password f else Username f]
    else Query u !! k.
Proof.
  intros Hk. unfold poll_request. cbn [Target Query with_Query].
  unfold apply_url_auth, Values_Set.
  assert (Hbase : apply_filters env f (Query u) !! k = Query u !! k).
  { rewrite apply_filters_lookup.
    destruct Hk as [-> | ->]; repeat (rewrite decide_False by discriminate);
      reflexivity. }
  destruct (String.eqb (authMethod f) "url"); [|exact Hbase].
  destruct Hk as [-> | ->].
  - rewrite lookup_insert_eq. reflexivity.
  - rewrite lookup_insert_ne by discriminate.
    rewrite lookup_insert_eq. reflexivity.
Qed.

(** The poll request carries the credentials through one channel at most:
    the cookie header only under the session method, the Basic header only
    under the basic method, the query only under the url method -- and
    otherwise the [username] and [password] of the query are those of the
    base URL. *)
Theorem poll_request_one_channel env f u :
  let req := poll_request env f u in
  let by_cookie := match HeaderCookie req with Some _ => true | None => false end in
  let by_header := match BasicAuth req with Some _ => true | None => false end in
  let by_query := String.eqb (authMethod f) "url" in
  (by_cookie && by_header = false)
  /\ (by_cookie && by_query = false)
  /\ (by_header && by_query = false)
  /\ (by_cookie = String.eqb (authMethod f) "session"
                  && negb (String.eqb (sessionCookie f) ""))
  /\ (by_header = String.eqb (authMethod f) "basic")
  /\ (Query (Target req) !! "password"
      = if by_query then Some [Password f] else Query u !! "password")
  /\ (Query (Target req) !! "username"
      = if by_query then Some [Username f] else Query u !! "username").
Proof.
  cbv zeta.
  rewrite (poll_query_credentials env f u "password") by (left; reflexivity).
  rewrite (poll_query_credentials env f u "username") by (right; reflexivity).
  unfold poll_request. cbn [HeaderCookie BasicAuth].
  generalize (authMethod f) as m. intros m.
  destruct (String.eqb_spec m "session") as [->|Hs].
  - cbn. destruct (negb (String.eqb (sessionCookie f) "")); repeat split.
  - cbn [andb]. destruct (String.eqb_spec m "basic") as [->|Hb].
    + cbn. repeat split.
    + destruct (String.eqb m "url"); repeat split.
Qed.
End ResponseAndRequest.

(** ** Package [monitor]: the policy over several polls *)

Section Sightings.
Import monitor.

Lemma observe_known cfg id rest : forall (h : gmap string AircraftTracker) t,
  NotifyOnCloserOnly cfg = true ->
  ReNotifyAfter cfg <= 0 ->
  h !! id = Some t ->
  (observe cfg id rest h).1 = closer_than_previous (LastDistance t) (map snd rest).
Proof.
  induction rest as [|[now d] rest IH]; intros h t Hmode Hre Hid; [reflexivity|].
  cbn [observe map snd closer_than_previous].
  rewrite (shouldNotify_known cfg now id d h t Hid). cbv zeta.
  rewrite Hmode.
  replace (0 <? ReNotifyAfter cfg) with false by (symmetry; apply Z.ltb_ge; lia).
  cbn [andb]. rewrite orb_false_r.
  specialize (IH (<[id := {| LastDistance := d; LastSeen := now;
                             Notified := (d <? LastDistance t)%float
                                         || Notified t |}]> h)
                 {| LastDistance := d; LastSeen := now;
                    Notified := (d <? LastDistance t)%float || Notified t |}
                 Hmode Hre (lookup_insert_eq _ _ _)).
  destruct (observe cfg id rest _) as [bs h']. cbn [fst] in *.
  rewrite IH. reflexivity.
Qed.

Lemma observe_legacy cfg id obs : forall (h : gmap string AircraftTracker),
  NotifyOnCloserOnly cfg = false ->
  (observe cfg id obs h).1 = repeat true (length obs).
Proof.
  induction obs as [|[now d] obs IH]; intros h Hmode; [reflexivity|].
  cbn [observe length repeat].
  assert (Hd : (notify_decision cfg now id d h).1 = true).
  { unfold notify_decision. destruct (h !! id); [|reflexivity].
    cbv zeta. rewrite Hmode. reflexivity. }
  destruct (notify_decision cfg now id d h) as [b h1]. cbn [fst] in Hd. subst b.
  specialize (IH h1 Hmode).
  destruct (observe cfg id obs h1) as [bs h2]. cbn [fst] in *.
  rewrite IH. reflexivity.
Qed.

(** An aircraft seen for the first time and then again and again: in
    closer-only mode without a re-notify interval the first sighting
    notifies and every later one notifies exactly when its distance is below
    that of the sighting just before it (whether or not that one notified);
    with the mode off every sighting notifies. *)
Theorem observe_decisions cfg id now0 d0 rest (h : gmap string AircraftTracker) :
  h !! id = None ->
  (NotifyOnCloserOnly cfg = true -> ReNotifyAfter cfg <= 0 ->
   (observe cfg id ((now0, d0) :: rest) h).1
   = true :: closer_than_previous d0 (map snd rest))
  /\ (NotifyOnCloserOnly cfg = false ->
      (observe cfg id ((now0, d0) :: rest) h).1
      = repeat true (S (length rest))).
Proof.
  intros Hid. split.
  - intros Hmode Hre. cbn [observe].
    rewrite (shouldNotify_first_sighting cfg now0 id d0 h Hid).
    pose proof (observe_known cfg id rest
                  (<[id := {| LastDistance := d0; LastSeen := now0;
                              Notified := true |}]> h)
                  {| LastDistance := d0; LastSeen := now0; Notified := true |}
                  Hmode Hre (lookup_insert_eq _ _ _)) as H.
    destruct (observe cfg id rest _) as [bs h']. cbn [fst LastDistance] in *.
    rewrite H. reflexivity.
  - intros Hmode. apply (observe_legacy cfg id ((now0, d0) :: rest) h Hmode).
Qed.

(** Ten km, then twelve, twelve again, eleven, nine. *)
Lemma observe_decisions_witness :
  (observe {| Latitude := 51.5; Longitude := 0; Enabled := true;
              NotifyOnCloserOnly := true; ReNotifyAfter := 0 |}
     "ABCDEF"
     [(100, 10%float); (200, 12%float); (300, 12%float); (400, 11%float);
      (500, 9%float)] ∅).1
  = [true; false; false; true; true].
Proof.
  refine (proj1 (observe_decisions
            {| Latitude := 51.5; Longitude := 0; Enabled := true;
               NotifyOnCloserOnly := true; ReNotifyAfter := 0 |}
            "ABCDEF" 100 10%float
            [(200, 12%float); (300, 12%float); (400, 11%float); (500, 9%float)]
            ∅ _) eq_refl _).
  - apply lookup_empty.
  - cbn. lia.
Defined.

(** Without an observer location every distance is 0, so in closer-only
    mode without a re-notify interval an aircraft that is already tracked is
    never notified again: no call of the notifier, no error. *)
Theorem no_location_no_renotification deps cfg ac m :
  no_location cfg = true ->
  NotifyOnCloserOnly cfg = true ->
  ReNotifyAfter cfg <= 0 ->
  is_Some (aircraftHistory m !! getAircraftIdentifier ac) ->
  (forall id t, aircraftHistory m !! id = Some t -> LastDistance t = 0%float) ->
  (processAircraft deps cfg ac m).1 = None
  /\ sends (processAircraft deps cfg ac m).2 = sends m
  /\ (forall id t, aircraftHistory (processAircraft deps cfg ac m).2 !! id = Some t ->
                   LastDistance t = 0%float).
Proof.
  intros Hloc Hmode Hre [t Ht] Hzero.
  unfold processAircraft. rewrite shouldNotifyAircraft_unfold.
  unfold calculateDistance. rewrite Hloc.
  rewrite (shouldNotify_known cfg _ _ _ _ t Ht). cbv zeta.
  rewrite Hmode, (Hzero _ _ Ht).
  replace (0 <? ReNotifyAfter cfg) with false by (symmetry; apply Z.ltb_ge; lia).
  change (0 <? 0)%float with false. cbn [orb andb fst snd].
  rewrite andb_false_r. cbn [fst snd sends add_log set_history tick_clock aircraftHistory].
  split; [reflexivity|]. split; [reflexivity|].
  intros id t'. rewrite lookup_insert. case_decide.
  - intros [= <-]. reflexivity.
  - apply Hzero.
Qed.
End Sightings.

Lemma no_location_no_renotification_witness :
  (monitor.processAircraft scenarios.failing_deps scenarios.no_location_cfg
     scenarios.TEST1 scenarios.tracking_TEST1).1 = None
  /\ monitor.sends
       (monitor.processAircraft scenarios.failing_deps scenarios.no_location_cfg
          scenarios.TEST1 scenarios.tracking_TEST1).2 = [].
Proof.
  destruct (no_location_no_renotification scenarios.failing_deps
              scenarios.no_location_cfg scenarios.TEST1 scenarios.tracking_TEST1)
    as (Herr & Hsends & _).
  - reflexivity.
  - reflexivity.
  - cbn. lia.
  - eexists. apply lookup_insert_eq.
  - intros id t. cbn [scenarios.tracking_TEST1 monitor.set_history
                      monitor.aircraftHistory].
    rewrite lookup_insert. case_decide.
    + intros [= <-]. reflexivity.
    + rewrite lookup_empty. discriminate.
  - split; [exact Herr|exact Hsends].
Defined.

(** ** Package [monitor]: the notifier *)

Section Notifier.
Import monitor.
Variables (deps : Deps) (cfg : Config).

(** The calls of the notifier by [processAircraft], for the counting below. *)
Lemma processAircraft_notifier ac m :
  let res := processAircraft deps cfg ac m in
  let id := getAircraftIdentifier ac in
  (sends res.2 = sends m /\ res.1 = None)
  \/ exists args,
       sends res.2 = args :: sends m
       /\ Enabled cfg = true
       /\ callsign args = aircraft.Call ac
       /\ (exists t, aircraftHistory res.2 !! id = Some t
                     /\ LastDistance t = distance args)
       /\ previousDistance args
          = match aircraftHistory m !! id with
            | Some t => LastDistance t
            | None => 0%float
            end
       /\ res.1 = match notifier_Send deps (sends m) args with
                  | Some cause => Some (ErrSend cause)
                  | None => None
                  end.
Proof.
  cbv zeta. unfold processAircraft. rewrite shouldNotifyAircraft_unfold.
  cbv zeta. cbn [fst snd].
  set (d := calculateDistance deps cfg (aircraft.Lat ac) (aircraft.Long ac)).
  set (id := getAircraftIdentifier ac).
  destruct (shouldNotify_lookup_same cfg (time_Now deps (clock m)) id d
              (aircraftHistory m)) as [n Hn].
  destruct (Enabled cfg) eqn:He; cbn [andb]; [|left; split; reflexivity].
  destruct (notify_decision cfg (time_Now deps (clock m)) id d (aircraftHistory m)).1;
    [|left; split; reflexivity].
  right. eexists. cbn [sends add_log set_history tick_clock].
  destruct (notifier_Send deps (sends m) _) eqn:Hsend;
    cbn [fst snd sends record_send add_log set_history tick_clock aircraftHistory];
    (split; [reflexivity|]); (split; [reflexivity|]); (split; [reflexivity|]);
    (split; [eexists; split; [exact Hn|reflexivity]|]);
    (split; [reflexivity|]); cbn [callsign]; rewrite Hsend; reflexivity.
Qed.

(** What [processAircraft] does with the notifier: nothing, or one call
    that reports the distance now stored in the tracker and, as previous
    distance, the one stored before (0 on a first sighting); it calls only
    when notifications are enabled, and it returns an error only for a call
    that failed. *)
Theorem processAircraft_send ac m :
  let res := processAircraft deps cfg ac m in
  let id := getAircraftIdentifier ac in
  (sends res.2 = sends m /\ res.1 = None)
  \/ exists args,
       sends res.2 = args :: sends m
       /\ Enabled cfg = true
       /\ callsign args = aircraft.Call ac
       /\ (exists t, aircraftHistory res.2 !! id = Some t
                     /\ LastDistance t = distance args)
       /\ previousDistance args
          = match aircraftHistory m !! id with
            | Some t => LastDistance t
            | None => 0%float
            end
       /\ res.1 = match notifier_Send deps (sends m) args with
                  | Some cause => Some (ErrSend cause)
                  | None => None
                  end.
Proof. exact (processAircraft_notifier ac m). Qed.

Lemma process_one_sends m ac :
  sends (process_one deps cfg m ac) = sends (processAircraft deps cfg ac m).2.
Proof.
  unfold process_one. destruct (processAircraft deps cfg ac m) as [[e|] m'];
    reflexivity.
Qed.

Lemma batch_sends_bound l : forall m,
  (length (sends (fold_left (process_one deps cfg) l m))
   <= length (sends m) + length l)%nat
  /\ (Enabled cfg = false ->
      sends (fold_left (process_one deps cfg) l m) = sends m).
Proof.
  induction l as [|ac l IH]; intros m; [cbn; split; [lia|reflexivity]|].
  cbn [fold_left length]. destruct (IH (process_one deps cfg m ac)) as [Hlen Hoff].
  rewrite process_one_sends in *.
  pose proof (processAircraft_notifier ac m) as Hp. cbv zeta in Hp.
  destruct Hp as [[Hs _] | (args & Hs & He & _)].
  - rewrite Hs in *. split; [lia|exact Hoff].
  - rewrite Hs in *. cbn [length] in *. split; [lia|]. congruence.
Qed.

(** In one poll the notifier is called at most once per aircraft of the
    batch; a cleanup never calls it; and with notifications disabled it is
    not called in any run of the loop. *)
Theorem notifier_calls_bounded :
  (forall m,
     (length (sends (fetchAndProcess deps cfg m).2)
      <= length (sends m)
         + match fetcher_Fetch deps (fetches m) with
           | inr acList => length (aircraft.Aircraft_ acList)
           | inl _ => 0
           end)%nat)
  /\ (forall m, sends (cleanupAircraftHistory deps m) = sends m)
  /\ (Enabled cfg = false ->
      forall ticks m, sends (monitorLoop deps cfg ticks m) = sends m).
Proof.
  split; [|split].
  - intros m. unfold fetchAndProcess.
    destruct (fetcher_Fetch deps (fetches m)) as [cause|acList]; cbn [snd].
    + cbn. lia.
    + apply (batch_sends_bound (aircraft.Aircraft_ acList) (count_fetch m)).
  - reflexivity.
  - intros Hoff.
    assert (Hpoll : forall m, sends (poll deps cfg m) = sends m).
    { intros m. unfold poll, fetchAndProcess.
      destruct (fetcher_Fetch deps (fetches m)) as [cause|acList]; [reflexivity|].
      cbn. apply (proj2 (batch_sends_bound _ (count_fetch m)) Hoff). }
    intros ticks m. unfold monitorLoop. rewrite <- (Hpoll m).
    generalize (poll deps cfg m).
    induction ticks as [|t ticks IH]; intros m0; [reflexivity|].
    cbn [fold_left]. rewrite IH. destruct t; [apply Hpoll|reflexivity].
Qed.
End Notifier.

Lemma notifier_calls_bounded_witness :
  monitor.sends
    (monitor.monitorLoop scenarios.failing_deps
       (monitor.with_Enabled false scenarios.test_cfg)
       [monitor.TickerC; monitor.CleanupTickerC; monitor.TickerC]
       monitor.NewMonitorWithDeps) = [].
Proof.
  exact (proj2 (proj2 (notifier_calls_bounded scenarios.failing_deps
                         (monitor.with_Enabled false scenarios.test_cfg)))
           eq_refl
           [monitor.TickerC; monitor.CleanupTickerC; monitor.TickerC]
           monitor.NewMonitorWithDeps).
Defined.

(** ** Package [monitor]: the life of a tracker *)

Section TrackerLife.
Import monitor.

(** A tracker that a cleanup finds stale is gone, and the next sighting of
    its identifier is a first sighting again: it notifies whatever the mode
    and the distance, and starts a new tracker. *)
Theorem resighting_after_cleanup deps cfg id d m tracker :
  aircraftHistory m !! id = Some tracker ->
  LastSeen tracker < time_Now deps (clock m) - 15 * Minute ->
  let swept := cleanupAircraftHistory deps m in
  aircraftHistory swept !! id = None
  /\ (shouldNotifyAircraft deps cfg id d swept).1 = true
  /\ aircraftHistory (shouldNotifyAircraft deps cfg id d swept).2 !! id
     = Some {| LastDistance := d;
               LastSeen := time_Now deps (S (clock m));
               Notified := true |}.
Proof.
  intros Hid Hstale. cbv zeta.
  assert (Hgone : aircraftHistory (cleanupAircraftHistory deps m) !! id = None).
  { unfold cleanupAircraftHistory. cbn [aircraftHistory set_history].
    rewrite sweep_lookup, Hid. unfold Time_Before, Time_Add.
    replace (LastSeen tracker <? time_Now deps (clock m) + -15 * Minute) with true
      by (symmetry; apply Z.ltb_lt; lia).
    reflexivity. }
  split; [exact Hgone|].
  rewrite shouldNotifyAircraft_unfold. cbn [fst snd aircraftHistory set_history].
  rewrite (shouldNotify_first_sighting cfg _ id d _ Hgone). cbn [fst snd].
  split; [reflexivity|]. apply lookup_insert_eq.
Qed.
End TrackerLife.

Lemma resighting_after_cleanup_witness :
  let m := monitor.set_history scenarios.old_and_recent monitor.NewMonitorWithDeps in
  let swept := monitor.cleanupAircraftHistory scenarios.failing_deps m in
  monitor.aircraftHistory swept !! "old" = None
  /\ (monitor.shouldNotifyAircraft scenarios.failing_deps
        scenarios.no_location_cfg "old" 5%float swept).1 = true
  /\ monitor.aircraftHistory
       (monitor.shouldNotifyAircraft scenarios.failing_deps
          scenarios.no_location_cfg "old" 5%float swept).2 !! "old"
     = Some {| monitor.LastDistance := 5%float;
               monitor.LastSeen :=
                 monitor.time_Now scenarios.failing_deps 1;
               monitor.Notified := true |}.
Proof.
  refine (resighting_after_cleanup scenarios.failing_deps
            scenarios.no_location_cfg "old" 5%float
            (monitor.set_history scenarios.old_and_recent
               monitor.NewMonitorWithDeps)
            {| monitor.LastDistance := 0;
               monitor.LastSeen := scenarios.now0 - 20 * monitor.Minute;
               monitor.Notified := true |} _ _).
  - reflexivity.
  - vm_compute. reflexivity.
Defined.

(** ** Package [monitor]: the clock and the counters of the loop *)

Section ClockReadings.
Import monitor.
Variables (deps : Deps) (cfg : Config).

Lemma seen_at_readings_later n n' (h : gmap string AircraftTracker) :
  (n <= n')%nat -> seen_at_readings deps n h -> seen_at_readings deps n' h.
Proof.
  intros Hle H id t Ht. destruct (H id t Ht) as (i & Hi & E).
  exists i. split; [lia|exact E].
Qed.

Lemma process_one_seen m ac :
  seen_at_readings deps (clock m) (aircraftHistory m) ->
  seen_at_readings deps (clock (process_one deps cfg m ac))
    (aircraftHistory (process_one deps cfg m ac)).
Proof.
  intros H id t. rewrite process_one_clock, process_one_history.
  destruct (decide (id = getAircraftIdentifier ac)) as [->|Hne].
  - destruct (shouldNotify_lookup_same cfg (time_Now deps (clock m))
                (getAircraftIdentifier ac)
                (calculateDistance deps cfg (aircraft.Lat ac) (aircraft.Long ac))
                (aircraftHistory m)) as [n ->].
    intros [= <-]. exists (clock m). split; [lia|reflexivity].
  - rewrite shouldNotify_lookup_other by exact Hne. intros Ht.
    destruct (H id t Ht) as (i & Hi & E). exists i. split; [lia|exact E].
Qed.

Lemma batch_seen l : forall m,
  seen_at_readings deps (clock m) (aircraftHistory m) ->
  seen_at_readings deps (clock (fold_left (process_one deps cfg) l m))
    (aircraftHistory (fold_left (process_one deps cfg) l m)).
Proof.
  induction l as [|ac l IH]; intros m H; [exact H|].
  cbn [fold_left]. apply IH, process_one_seen, H.
Qed.

Lemma poll_seen m :
  seen_at_readings deps (clock m) (aircraftHistory m) ->
  seen_at_readings deps (clock (poll deps cfg m)) (aircraftHistory (poll deps cfg m)).
Proof.
  intros H. unfold poll, fetchAndProcess.
  destruct (fetcher_Fetch deps (fetches m)) as [cause|acList]; [exact H|].
  apply (batch_seen (aircraft.Aircraft_ acList) (count_fetch m)), H.
Qed.

Lemma cleanup_seen m :
  seen_at_readings deps (clock m) (aircraftHistory m) ->
  seen_at_readings deps (clock (cleanupAircraftHistory deps m))
    (aircraftHistory (cleanupAircraftHistory deps m)).
Proof.
  intros H id t. unfold cleanupAircraftHistory.
  cbn [aircraftHistory clock set_history tick_clock].
  rewrite sweep_lookup. destruct (aircraftHistory m !! id) as [t0|] eqn:E;
    [|discriminate].
  destruct (Time_Before _ _); [discriminate|]. intros [= <-].
  destruct (H id t0 E) as (i & Hi & Ei). exists i. split; [lia|exact Ei].
Qed.

Lemma on_tick_seen m t :
  seen_at_readings deps (clock m) (aircraftHistory m) ->
  seen_at_readings deps (clock (on_tick deps cfg m t))
    (aircraftHistory (on_tick deps cfg m t)).
Proof. destruct t; [apply poll_seen|apply cleanup_seen]. Qed.

(** Every time stored in a tracker is a value that [time.Now] returned to
    the monitor: if that holds of the map when the loop starts (it does of
    the empty map of a new monitor), it holds after any sequence of ticks.
    With a clock that never goes back, no tracker is then ahead of the next
    reading, so that [shouldNotifyAircraft] never sees a negative time
    since the last sighting. *)
Theorem LastSeen_is_a_clock_reading ticks m :
  seen_at_readings deps (clock m) (aircraftHistory m) ->
  let m' := monitorLoop deps cfg ticks m in
  seen_at_readings deps (clock m') (aircraftHistory m')
  /\ ((forall i j, (i <= j)%nat -> time_Now deps i <= time_Now deps j) ->
      forall aircraftID tracker,
        aircraftHistory m' !! aircraftID = Some tracker ->
        LastSeen tracker <= time_Now deps (clock m')
        /\ 0 <= Time_Sub (time_Now deps (clock m')) (LastSeen tracker)).
Proof.
  intros H. cbv zeta.
  assert (Hinv : seen_at_readings deps (clock (monitorLoop deps cfg ticks m))
                   (aircraftHistory (monitorLoop deps cfg ticks m))).
  { unfold monitorLoop. apply poll_seen in H. revert H.
    generalize (poll deps cfg m).
    induction ticks as [|t ticks IH]; intros m0 H0; [exact H0|].
    cbn [fold_left]. apply IH, on_tick_seen, H0. }
  split; [exact Hinv|].
  intros Hmono id t Ht. destruct (Hinv id t Ht) as (i & Hi & ->).
  assert (Hle : time_Now deps i
                <= time_Now deps (clock (monitorLoop deps cfg ticks m)))
    by (apply Hmono; lia).
  split; [exact Hle|].
  unfold Time_Sub, minDuration, maxDuration. lia.
Qed.

Lemma poll_fetches m : fetches (poll deps cfg m) = S (fetches m).
Proof.
  assert (Hb : forall l m0,
             fetches (fold_left (process_one deps cfg) l m0) = fetches m0).
  { induction l as [|ac l IH]; intros m0; [reflexivity|].
    cbn [fold_left]. rewrite IH.
    pose proof (process_one_tracking deps cfg m0 ac) as E.
    rewrite processAircraft_tracking in E. unfold tracking in E. congruence. }
  unfold poll, fetchAndProcess.
  destruct (fetcher_Fetch deps (fetches m)) as [cause|acList]; [reflexivity|].
  cbn. apply (Hb _ (count_fetch m)).
Qed.

Lemma poll_readings m :
  (clock (poll deps cfg m) + detected m = clock m + detected (poll deps cfg m))%nat.
Proof.
  unfold poll, fetchAndProcess.
  destruct (fetcher_Fetch deps (fetches m)) as [cause|acList]; [reflexivity|].
  cbn -[detected].
  rewrite (batch_clock deps cfg _ (count_fetch m)), (batch_detected deps cfg _ (count_fetch m)).
  cbn [clock count_fetch]. unfold detected. cbn [log count_fetch]. lia.
Qed.

Lemma on_tick_counters m t :
  fetches (on_tick deps cfg m t) = (fetches m + poll_ticks [t])%nat
  /\ (clock (on_tick deps cfg m t) + detected m + poll_ticks [t]
      = clock m + detected (on_tick deps cfg m t) + 1)%nat.
Proof.
  destruct t; cbn [on_tick poll_ticks List.filter length].
  - rewrite poll_fetches. pose proof (poll_readings m). lia.
  - unfold cleanupAircraftHistory, detected.
    cbn [fetches clock log set_history tick_clock]. lia.
Qed.

Lemma ticks_counters ticks : forall m,
  let m' := fold_left (on_tick deps cfg) ticks m in
  fetches m' = (fetches m + poll_ticks ticks)%nat
  /\ (clock m' + detected m + poll_ticks ticks
      = clock m + detected m' + length ticks)%nat.
Proof.
  induction ticks as [|t ticks IH]; intros m; cbv zeta.
  - cbn. lia.
  - cbn [fold_left length].
    assert (Hpt : poll_ticks (t :: ticks)
                  = (poll_ticks [t] + poll_ticks ticks)%nat).
    { unfold poll_ticks. destruct t; reflexivity. }
    rewrite Hpt.
    destruct (on_tick_counters m t) as [Hf Hc].
    destruct (IH (on_tick deps cfg m t)) as [Hf' Hc']. lia.
Qed.

(** The fetcher is asked once when the loop starts and once for each tick
    of the poll ticker, whether the fetches before succeeded or failed,
    and never by a cleanup tick. The clock is read once for each aircraft
    that was logged as detected and once for each cleanup tick, and at no
    other point. *)
Theorem monitorLoop_counters ticks m :
  let m' := monitorLoop deps cfg ticks m in
  fetches m' = (fetches m + 1 + poll_ticks ticks)%nat
  /\ (clock m' + detected m + poll_ticks ticks
      = clock m + detected m' + length ticks)%nat.
Proof.
  cbv zeta. unfold monitorLoop.
  destruct (ticks_counters ticks (poll deps cfg m)) as [Hf Hc].
  pose proof (poll_fetches m). pose proof (poll_readings m). lia.
Qed.
End ClockReadings.

Lemma LastSeen_is_a_clock_reading_witness :
  let m' := monitor.monitorLoop scenarios.failing_deps scenarios.test_cfg
              [monitor.TickerC; monitor.CleanupTickerC]
              monitor.NewMonitorWithDeps in
  monitor.seen_at_readings scenarios.failing_deps (monitor.clock m')
    (monitor.aircraftHistory m')
  /\ (forall aircraftID tracker,
        monitor.aircraftHistory m' !! aircraftID = Some tracker ->
        monitor.LastSeen tracker
        <= monitor.time_Now scenarios.failing_deps (monitor.clock m')).
Proof.
  assert (Hnew : monitor.seen_at_readings scenarios.failing_deps
                   (monitor.clock monitor.NewMonitorWithDeps)
                   (monitor.aircraftHistory monitor.NewMonitorWithDeps)).
  { unfold monitor.seen_at_readings. intros id t H.
    cbn [monitor.aircraftHistory monitor.NewMonitorWithDeps] in H.
    rewrite lookup_empty in H. discriminate H. }
  assert (Hmono : forall i j, (i <= j)%nat ->
                    monitor.time_Now scenarios.failing_deps i
                    <= monitor.time_Now scenarios.failing_deps j).
  { intros i j Hij. cbn [scenarios.failing_deps monitor.time_Now].
    unfold monitor.Second, monitor.Nanosecond. lia. }
  destruct (LastSeen_is_a_clock_reading scenarios.failing_deps
              scenarios.test_cfg [monitor.TickerC; monitor.CleanupTickerC]
              monitor.NewMonitorWithDeps Hnew) as [Hinv Hle].
  split; [exact Hinv|].
  intros aircraftID tracker Ht. exact (proj1 (Hle Hmono aircraftID tracker Ht)).
Defined.

(** ** Package [monitor]: the key of the tracker map *)

Section Identifier.
Import monitor.

Lemma append_inv_head (p a b : string) : p ++ a = p ++ b -> a = b.
Proof.
  induction p as [|c p IH]; cbn; intros H; [exact H|].
  injection H as H. exact (IH H).
Qed.

Lemma Itoa_inj (a b : Z) :
  strconv.in_int64 a = true -> strconv.in_int64 b = true ->
  strconv.Itoa a = strconv.Itoa b -> a = b.
Proof.
  intros Ha Hb E. pose proof (Atoi_Itoa a Ha) as Ea.
  rewrite E, (Atoi_Itoa b Hb) in Ea. congruence.
Qed.

(** The key under which an aircraft is tracked is never the empty string.
    It does not tell an ICAO code from a callsign: an aircraft with an ICAO
    code and one without, whose callsign is that code, share a tracker.
    Among aircraft with neither, those of one type share a tracker exactly
    when they report the same altitude. *)
Theorem getAircraftIdentifier_keys :
  (forall ac, getAircraftIdentifier ac <> "")
  /\ (forall ac1 ac2,
        aircraft.Icao ac1 <> "" -> aircraft.Icao ac2 = "" ->
        aircraft.Call ac2 = aircraft.Icao ac1 ->
        getAircraftIdentifier ac1 = getAircraftIdentifier ac2)
  /\ (forall ac1 ac2,
        aircraft.Icao ac1 = "" -> aircraft.Call ac1 = "" ->
        aircraft.Icao ac2 = "" -> aircraft.Call ac2 = "" ->
        aircraft.Type_ ac1 = aircraft.Type_ ac2 ->
        strconv.in_int64 (aircraft.Alt ac1) = true ->
        strconv.in_int64 (aircraft.Alt ac2) = true ->
        (getAircraftIdentifier ac1 = getAircraftIdentifier ac2
         <-> aircraft.Alt ac1 = aircraft.Alt ac2)).
Proof.
  split; [|split].
  - intros ac. unfold getAircraftIdentifier.
    destruct (String.eqb_spec (aircraft.Icao ac) "") as [_|Hi]; cbn [negb];
      [|exact Hi].
    destruct (String.eqb_spec (aircraft.Call ac) "") as [_|Hc]; cbn [negb];
      [|exact Hc].
    destruct (aircraft.Type_ ac); discriminate.
  - intros ac1 ac2 H1 H2 Hc. unfold getAircraftIdentifier.
    rewrite H2, Hc, (String_eqb_neq _ _ H1). reflexivity.
  - intros ac1 ac2 Hi1 Hc1 Hi2 Hc2 Ht Ha1 Ha2. unfold getAircraftIdentifier.
    rewrite Hi1, Hc1, Hi2, Hc2, Ht. cbn [String.eqb negb].
    split.
    + intros E. apply append_inv_head in E. apply (append_inv_head "_") in E.
      exact (Itoa_inj _ _ Ha1 Ha2 E).
    + intros ->. reflexivity.
Qed.
End Identifier.

Lemma getAircraftIdentifier_keys_witness :
  let unnamed (alt : Z) : aircraft.Aircraft :=
    {| aircraft.Icao := ""; aircraft.Alt := alt; aircraft.Call := "";
       aircraft.Lat := 51.625; aircraft.Long := 0.125; aircraft.Spd := 400;
       aircraft.Type_ := "A320"; aircraft.Mil := false |} in
  (monitor.getAircraftIdentifier (unnamed 10000)
   = monitor.getAircraftIdentifier (unnamed 12000)
   <-> 10000 = 12000)
  /\ monitor.getAircraftIdentifier (unnamed 10000) = "A320_10000".
Proof.
  intros unnamed. split; [|reflexivity].
  exact (proj2 (proj2 getAircraftIdentifier_keys) (unnamed 10000) (unnamed 12000)
           eq_refl eq_refl eq_refl eq_refl eq_refl eq_refl eq_refl).
Defined.
